(** * PPG_models: nested cross-validation and hyperparameter aggregation

    A shallow embedding of [scripts/PPG_models.py] and the properties of its
    aggregation policy, generators, confusion statistics, class weighting and
    evaluation pipeline.

    Conventions.
    - A Python float is written as the rational it stands for ([Q]), a
      decimal literal for the binary64 number nearest to it; results that
      are floats are compared with [==] ([Qeq]). A single division is
      given by its exact quotient. Where the interpreter's result depends
      on accumulated rounding, in the candidates that the generators
      produce for the grids and in [np.mean], the computation is also
      carried out on binary64 numbers (module [Binary64]).
    - A raised exception is [None] in the [option] monad (or in the trace
      monad of the pipeline).
    - Functions of the standard library, scikit-learn, pandas and numpy
      whose value a property depends on ([Counter], [np.mean],
      [value_counts], [confusion_matrix], [accuracy_score], [KFold]) are
      modelled after their documented behaviour; the estimators, the
      train/test split and the random shuffle are parameters of the
      pipeline.
    - Printing and plotting are left out. *)

From Stdlib Require Import ZArith QArith Qround Lia Lqa Floats.PrimFloat.
From Stdlib Require Floats.SpecFloat Floats.FloatOps.
From stdpp Require Import base option list sorting strings pretty gmap.

Local Open Scope Z_scope.

(** ** Python values *)

Module Py.

(** The values that occur in a hyper-parameter grid: [int], [float] (also
    [numpy.float64], a subclass of [float]), [str], [bool] and [None]. *)
Inductive pyval : Type :=
| PInt (z : Z)
| PFloat (q : Q)
| PStr (s : string)
| PBool (b : bool)
| PNone.

(** [isinstance(x, (float, int))]: [bool] is a subclass of [int]. *)
Definition is_float_or_int (x : pyval) : bool :=
  match x with
  | PInt _ | PFloat _ | PBool _ => true
  | PStr _ | PNone => false
  end.

(** [isinstance(x, (int, str))]. *)
Definition is_int_or_str (x : pyval) : bool :=
  match x with
  | PInt _ | PBool _ | PStr _ => true
  | PFloat _ | PNone => false
  end.

(** [isinstance(x, int)]. *)
Definition is_int (x : pyval) : bool :=
  match x with
  | PInt _ | PBool _ => true
  | _ => false
  end.

(** The number a numeric value stands for ([True] is 1, [False] is 0). *)
Definition py_num (x : pyval) : option Q :=
  match x with
  | PInt z => Some (inject_Z z)
  | PFloat q => Some q
  | PBool b => Some (if b then 1%Q else 0%Q)
  | PStr _ | PNone => None
  end.

(** Python's [==] on these values, which is also the equality of dictionary
    keys: numbers compare by value across [int], [float] and [bool]. *)
Definition py_eqb (x y : pyval) : bool :=
  match x, y with
  | PStr a, PStr b => String.eqb a b
  | PNone, PNone => true
  | _, _ =>
      match py_num x, py_num y with
      | Some a, Some b => Qeq_bool a b
      | _, _ => false
      end
  end.

(** [sum(l)] over numbers. *)
Definition Qsum (l : list Q) : Q := fold_left Qplus l 0%Q.

(** [np.mean(value)] in exact arithmetic: the sum divided by the number of
    elements, a float. A non-numeric element raises. ([Binary64.np_mean]
    is the mean as numpy rounds it.) *)
Definition np_mean (value : list pyval) : option pyval :=
  nums ← mapM py_num value;
  Some (PFloat (Qsum nums / inject_Z (Z.of_nat (length nums)))).

(** *** [collections.Counter] *)

(** [c[x] += 1]: the count of the key equal to [x] grows; a new key goes to
    the end (dictionaries keep insertion order, and the first key object). *)
Fixpoint counter_add (x : pyval) (c : list (pyval * nat)) : list (pyval * nat) :=
  match c with
  | [] => [(x, 1%nat)]
  | (k, n) :: c' =>
      if py_eqb k x then (k, S n) :: c' else (k, n) :: counter_add x c'
  end.

Definition Counter (value : list pyval) : list (pyval * nat) :=
  fold_left (fun c x => counter_add x c) value [].

(** [max(items, key=itemgetter(1))]: the first item with the largest count. *)
Fixpoint max_count (best : pyval * nat) (items : list (pyval * nat)) : pyval * nat :=
  match items with
  | [] => best
  | kv :: items' => max_count (if (snd best <? snd kv)%nat then kv else best) items'
  end.

(** [counter.most_common(1)]: [heapq.nlargest(1, ...)], which is [max] with
    the empty list for an empty counter. *)
Definition most_common_1 (c : list (pyval * nat)) : list (pyval * nat) :=
  match c with
  | [] => []
  | kv :: c' => [max_count kv c']
  end.

End Py.

Import Py.

(** ** Generators *)

(** A Python generator as a step function on its local state: [next s] is
    [None] when the generator returns and [Some (v, s')] when it yields [v]
    and continues from [s']. [collect] is [list(generator)]; it runs out of
    fuel ([None]) on a generator that yields more than [fuel] values. *)
Fixpoint collect {S A : Type} (next : S -> option (A * S)) (fuel : nat) (s : S)
  : option (list A) :=
  match fuel with
  | O => None
  | S fuel' =>
      match next s with
      | None => Some []
      | Some (v, s') => cons v <$> collect next fuel' s'
      end
  end.

Definition Qlt_bool (x y : Q) : bool := negb (Qle_bool y x).

(** ** class Processing *)

Module Processing.

(** A row of [ppg_dataframe.csv]: the session's file name, its label and the
    feature columns (an empty cell is [None]). *)
Record observation : Type := {
  Filename : string;
  State : Z;
  Features : list (option Q);
}.

(** [y.value_counts()]: the number of occurrences of every label that
    occurs, indexed by the label. *)
Definition value_counts (y : list Z) : gmap Z nat :=
  foldr (fun v m => <[v := S (default O (m !! v))]> m) ∅ y.

(** [a / b] on two counts of a pandas Series: a float; the counts that
    [value_counts] reports are positive. *)
Definition count_ratio (a b : nat) : Q :=
  (inject_Z (Z.of_nat a) / inject_Z (Z.of_nat b))%Q.

(** [extract_data], on the table already read. [value_counts()[c]] looks
    the label [c] up and raises [KeyError] when it does not occur. *)
Definition extract_data (df : list observation)
  : option (list (list (option Q)) * list Z * list string * list pyval) :=
  let X := Features <$> df in
  let y := State <$> df in
  let sessions := Filename <$> df in
  n0 ← value_counts y !! 0;
  n1 ← value_counts y !! 1;
  let class_weighting := [PInt 1; PFloat (count_ratio n0 n1)] in
  Some (X, y, sessions, class_weighting).

Section Ranges.
(** The generators only compare and add (or multiply) numbers, so they are
    written once for any number type. *)
Context {F : Type} (lt le : F -> F -> bool) (add mul : F -> F -> F).

(** [while start < stop: yield start; start += step] *)
Definition frange_next (stop step start : F) : option (F * F) :=
  if lt start stop then Some (start, add start step) else None.

(** [while start <= stop: yield start; start *= factor] *)
Definition mrange_next (stop factor start : F) : option (F * F) :=
  if le start stop then Some (start, mul start factor) else None.
End Ranges.

(** [list(Processing.frange(start, stop, step))] in exact arithmetic. *)
Definition frange (fuel : nat) (start stop step : Q) : option (list Q) :=
  collect (frange_next Qlt_bool Qplus stop step) fuel start.

(** [list(Processing.mrange(start, stop, factor))] in exact arithmetic. *)
Definition mrange (fuel : nat) (start stop factor : Q) : option (list Q) :=
  collect (mrange_next Qle_bool Qmult stop factor) fuel start.

End Processing.

(** ** Binary64 arithmetic *)

(** The interpreter computes on IEEE binary64 numbers. The generators only
    add (or multiply) and compare, so their step functions run on these
    numbers as they do on rationals; [np.mean] adds in numpy's order. *)
Module Binary64.

(** [float(z)]: the binary64 number nearest to an integer, ties to even. *)
Definition of_Z (z : Z) : float :=
  FloatOps.SF2Prim (SpecFloat.binary_normalize FloatOps.prec FloatOps.emax z 0 false).

(** The binary64 number nearest to a rational, ties to even: the number a
    decimal literal denotes. A number of binary64 is kept as it is. *)
Definition of_Q (q : Q) : float :=
  let den := SpecFloat.S754_finite false (Qden q) 0 in
  match Qnum q with
  | Z0 => PrimFloat.zero
  | Zpos n =>
      FloatOps.SF2Prim (SpecFloat.SFdiv FloatOps.prec FloatOps.emax
                          (SpecFloat.S754_finite false n 0) den)
  | Zneg n =>
      FloatOps.SF2Prim (SpecFloat.SFdiv FloatOps.prec FloatOps.emax
                          (SpecFloat.S754_finite true n 0) den)
  end.

(** The rational a binary64 number is. An infinity is written as the
    power of two that [of_Q] rounds to it; [nan] has no rational and is
    written 0 (the sign of a zero is lost as well). *)
Definition to_Q (f : float) : Q :=
  match FloatOps.Prim2SF f with
  | SpecFloat.S754_finite s m e =>
      let v := if 0 <=? e then inject_Z (Zpos m * 2 ^ e)
               else Zpos m # Z.to_pos (2 ^ (- e)) in
      if s then Qopp v else v
  | SpecFloat.S754_infinity s =>
      if s then Qopp (inject_Z (2 ^ 1024)) else inject_Z (2 ^ 1024)
  | _ => 0%Q
  end.

(** The binary64 number a decimal literal denotes, as a rational. *)
Definition literal (q : Q) : Q := to_Q (of_Q q).

(** [list(Processing.frange(start, stop, step))] on floats. *)
Definition frange (fuel : nat) (start stop step : float) : option (list float) :=
  collect (Processing.frange_next PrimFloat.ltb PrimFloat.add stop step) fuel start.

(** [list(Processing.mrange(start, stop, factor))] on floats. *)
Definition mrange (fuel : nat) (start stop factor : float) : option (list float) :=
  collect (Processing.mrange_next PrimFloat.leb PrimFloat.mul stop factor) fuel start.

(** *** [np.mean]

    [np.mean(value)] turns the list into a float64 array, adds its
    elements with [np.add.reduce] and divides the sum by their number. The
    reduction of a contiguous array is numpy's pairwise summation: fewer
    than 8 elements are added from left to right; up to 128 elements are
    added into 8 accumulators, which are then added as a tree, followed by
    the elements left over; a longer array is split in two. *)

(** [((r[0] + r[1]) + (r[2] + r[3])) + ((r[4] + r[5]) + (r[6] + r[7]))] *)
Definition tree8 (r : list float) : float :=
  match r with
  | [r0; r1; r2; r3; r4; r5; r6; r7] =>
      ((r0 + r1) + (r2 + r3)) + ((r4 + r5) + (r6 + r7))
  | _ => fold_left PrimFloat.add r PrimFloat.zero
  end%float.

(** [for (i = 8; i < n - (n % 8); i += 8) r[j] += a[i + j]], for the [k]
    blocks of 8 that remain; the elements left over are returned. *)
Fixpoint blocks (k : nat) (r a : list float) : list float * list float :=
  match k with
  | O => (r, a)
  | S k' => blocks k' (zip_with PrimFloat.add r (take 8 a)) (drop 8 a)
  end.

(** The sum of 8 to 128 elements. *)
Definition block_sum (a : list float) : float :=
  let '(r, rest) := blocks (length a / 8 - 1) (take 8 a) (drop 8 a) in
  fold_left PrimFloat.add rest (tree8 r).

(** [pairwise_sum(a, n)]; the recursion halves the array, so [length a]
    is enough fuel. *)
Fixpoint pairwise_sum (fuel : nat) (a : list float) : float :=
  let n := length a in
  if (n <? 8)%nat then fold_left PrimFloat.add a PrimFloat.zero
  else if (n <=? 128)%nat then block_sum a
  else
    match fuel with
    | O => block_sum a
    | S fuel' =>
        let n2 := (n / 2 - (n / 2) mod 8)%nat in
        (pairwise_sum fuel' (take n2 a) + pairwise_sum fuel' (drop n2 a))%float
    end.

(** [np.add.reduce(a)], from the identity 0. *)
Definition sum (a : list float) : float :=
  (PrimFloat.zero + pairwise_sum (length a) a)%float.

(** The element of the float64 array that a number of the list becomes:
    [float(x)], an [OverflowError] for an integer beyond the range of
    binary64. A list of integers only is an int64 array, whose elements
    are converted as they are added. An integer beyond int64 makes numpy
    build an object array, whose elements are added as Python numbers;
    the order and the rounding of that sum are not modelled, the integer
    is converted here as well. *)
Definition to_float (x : pyval) : option float :=
  match x with
  | PInt z => if Z.abs z <? 2 ^ 1024 - 2 ^ 970 then Some (of_Z z) else None
  | PFloat q => Some (of_Q q)
  | PBool b => Some (if b then PrimFloat.one else PrimFloat.zero)
  | PStr _ | PNone => None
  end.

(** [np.mean(value)], a float. *)
Definition np_mean (value : list pyval) : option pyval :=
  nums ← mapM to_float value;
  Some (PFloat (to_Q (sum nums / of_Z (Z.of_nat (length nums))))).

End Binary64.

(** ** The pipeline's collaborators *)

(** Feature tables before and after imputation. *)
Abbreviation raw_matrix := (list (list (option Q))).
Abbreviation matrix := (list (list Q)).

(** The classifiers the script builds, with their keyword arguments. The
    Gaussian process classifier takes the kernel
    [C(c) * RBF(length_scale=l) + WhiteKernel(noise_level=n)]. *)
Inductive estimator : Type :=
| SVC (kwargs : gmap string pyval)
| RandomForestClassifier (kwargs : gmap string pyval)
| KNeighborsClassifier (kwargs : gmap string pyval)
| QuadraticDiscriminantAnalysis (kwargs : gmap string pyval)
| GaussianNB (kwargs : gmap string pyval)
| GaussianProcessClassifier (c l n max_iter_predict : pyval)
| CustomGPC.

(** [GridSearchCV(estimator, param_grid, cv=..., scoring=...)]; [verbose],
    [n_jobs] and [return_train_score] do not change the result. *)
Record grid_search : Type := {
  gs_estimator : estimator;
  gs_param_grid : list (string * list pyval);
  gs_cv : nat;
  gs_scoring : option string;
}.

(** What the pipeline takes from scikit-learn and matplotlib. Only the data
    flow through these functions matters to the properties below. *)
Class Sklearn : Type := {
  (** the row numbers [train_test_split(..., test_size, random_state,
      stratify)] puts in the train and in the test partition, for a table
      of the given number of rows; [ValueError] is [None] *)
  split_indices : Q -> nat -> nat -> list Z -> option (list nat * list nat);
  (** [SimpleImputer(strategy, fill_value)]: the fitted statistics and
      their application *)
  imputer_params : Type;
  SimpleImputer_fit : string -> Q -> raw_matrix -> imputer_params;
  SimpleImputer_transform : imputer_params -> raw_matrix -> matrix;
  (** [StandardScaler()]: the fitted mean and scale and their application *)
  scaler_params : Type;
  StandardScaler_fit : matrix -> scaler_params;
  StandardScaler_transform : scaler_params -> matrix -> matrix;
  (** [RandomState(seed).shuffle(arange(n))] *)
  shuffle : nat -> nat -> list nat;
  (** [GridSearchCV(...).fit(X, y).best_params_] *)
  GridSearchCV_fit : grid_search -> matrix -> list Z -> option (list (string * pyval));
  (** [model.fit(X, y)] and [model.predict(X)] *)
  fitted : Type;
  fit : estimator -> matrix -> list Z -> option fitted;
  predict : fitted -> matrix -> list Z;
  (** [roc_curve] and [roc_auc_score] *)
  roc_curve : list Z -> list Z -> option (list Q * list Q * list Q);
  roc_auc_score : list Z -> list Z -> option Q;
  (** the [plot] method of the model class for the given family *)
  plot : string -> matrix -> list Z -> estimator -> option unit;
}.

(** ** Effects: a trace of calls, and exceptions *)

(** The calls whose number and arguments the properties are about, and the
    file the evaluation writes. *)
Inductive event : Type :=
| call_hyperparameters (model : string) (X_train : matrix) (y_train : list Z)
| call_run_model (model : estimator) (X_train : matrix) (y_train : list Z)
    (X_test : matrix) (y_test : list Z) (sessions_test : list string)
| to_csv (path : string) (rows : list string).

(** A computation reads the trace so far and returns its result ([None]:
    an exception was raised) with the extended trace. *)
Definition M (A : Type) : Type := list event -> option A * list event.

#[global] Instance M_ret : MRet M := fun A x tr => (Some x, tr).
#[global] Instance M_bind : MBind M := fun A B f m tr =>
  match m tr with
  | (Some x, tr') => f x tr'
  | (None, tr') => (None, tr')
  end.

Definition log (e : event) : M unit := fun tr => (Some tt, tr ++ [e]).
Definition lift {A : Type} (o : option A) : M A := fun tr => (o, tr).

(** [for x in xs: s = body(x, s)] *)
Fixpoint for_each {A S : Type} (xs : list A) (body : A -> S -> M S) (s : S) : M S :=
  match xs with
  | [] => mret s
  | x :: xs' => s' ← body x s; for_each xs' body s'
  end.

(** [a[ix]] for a list of row numbers; [IndexError] out of bounds. *)
Definition select {A : Type} (a : list A) (ix : list nat) : option (list A) :=
  mapM (fun i => a !! i) ix.

(** [a[mask]] for a boolean mask of the same length, as in the pipeline,
    where the mask has the index of [a]. (For another length pandas aligns
    the two on their index; that case is not modelled and is [None].) *)
Definition mask_select {A : Type} (a : list A) (mask : list bool) : option (list A) :=
  if decide (length a = length mask)
  then Some (fst <$> List.filter snd (zip a mask))
  else None.

(** ** class Analysis *)

Module Analysis.

(** The result of a numpy division: a zero denominator gives [inf] or [nan]
    (with a warning), not an exception. *)
Inductive float64 : Type :=
| Finite (q : Q)
| Inf
| NegInf
| NaN.

(** [a / b] for two integers, as numpy's true division. *)
Definition np_divide (a b : Z) : float64 :=
  if b =? 0 then (if a =? 0 then NaN else if 0 <? a then Inf else NegInf)
  else Finite (inject_Z a / inject_Z b)%Q.

(** [cm[i, j]] on a two-dimensional array; [IndexError] out of bounds. *)
Definition cell (cm : list (list Z)) (i j : nat) : option Z :=
  r ← cm !! i; r !! j.

Record confusion_stats : Type := {
  model_accuracy : float64;
  model_error : float64;
  precision : float64;
  recall : float64;
  true_positive_rate : float64;
  false_positive_rate : float64;
  specificity : float64;
}.

(** [Analysis.confusion]: the dictionary it prints. The cells are numpy
    int64 counts; the sums are written without the wrap-around, which
    takes counts that add up to 2^63. *)
Definition confusion (cm : list (list Z)) : option confusion_stats :=
  TP ← cell cm 0 0;
  TN ← cell cm 1 1;
  FP ← cell cm 0 1;
  FN ← cell cm 1 0;
  Some {|
    model_accuracy := np_divide (TP + TN) (TP + TN + FP + FN);
    model_error := np_divide (FP + FN) (TP + TN + FP + FN);
    precision := np_divide TP (TP + FP);
    recall := np_divide TP (TP + FN);
    true_positive_rate := np_divide TP (TP + FN);
    false_positive_rate := np_divide FP (FP + TN);
    specificity := np_divide TN (TN + FP);
  |}.

Section Roc.
Context `{Sklearn}.

(** [Analysis.roc]: the curve and its area are computed, printed and
    plotted; either library call may raise. *)
Definition roc (y_test y_pred : list Z) : option unit :=
  _ ← roc_curve y_test y_pred;
  _ ← roc_auc_score y_test y_pred;
  Some tt.
End Roc.

End Analysis.

(** ** Library functions whose values matter *)

Module Metrics.

(** [check_consistent_length]: the metrics raise [ValueError] on label
    vectors of different lengths. *)
Definition check_consistent_length (y_true y_pred : list Z) : option unit :=
  if decide (length y_true = length y_pred) then Some tt else None.

(** The number of positions with true label [t] and predicted label [p]. *)
Definition count_pairs (t p : Z) (y_true y_pred : list Z) : Z :=
  Z.of_nat (length (List.filter (fun tp => (fst tp =? t) && (snd tp =? p))
                                (zip y_true y_pred))).

(** [confusion_matrix(y_true, y_pred)]: rows are true labels, columns are
    predicted labels, both over the sorted labels that occur in either
    vector. (Two empty vectors give the empty matrix here; no cell of it
    can be read.) *)
Definition confusion_matrix (y_true y_pred : list Z) : option (list (list Z)) :=
  _ ← check_consistent_length y_true y_pred;
  let labels := merge_sort Z.le (remove_dups (y_true ++ y_pred)) in
  Some ((fun t => (fun p => count_pairs t p y_true y_pred) <$> labels) <$> labels).

(** The number of positions where the two vectors agree. *)
Definition count_correct (y_true y_pred : list Z) : nat :=
  length (List.filter (fun tp => fst tp =? snd tp) (zip y_true y_pred)).

(** [accuracy_score(y_true, y_pred)]: the fraction of positions where the
    prediction equals the label. No number comes out of vectors of
    different lengths (an error) or of empty ones (the mean of nothing). *)
Definition accuracy_score (y_true y_pred : list Z) : option Q :=
  _ ← check_consistent_length y_true y_pred;
  if decide (length y_true = O) then None
  else Some (inject_Z (Z.of_nat (count_correct y_true y_pred))
             / inject_Z (Z.of_nat (length y_true)))%Q.

(** The sizes of the folds of [KFold]: [n // n_splits] each, one more for
    the first [n % n_splits]. *)
Definition fold_sizes (n_splits n : nat) : list nat :=
  (fun i => if (i <? n mod n_splits)%nat
            then S (n / n_splits) else (n / n_splits)%nat) <$> seq 0 n_splits.

(** Consecutive slices of the given sizes. *)
Fixpoint chunks (sizes : list nat) (indices : list nat) : list (list nat) :=
  match sizes with
  | [] => []
  | size :: sizes' => take size indices :: chunks sizes' (drop size indices)
  end.

Section KFold.
Context `{Sklearn}.

(** [KFold(n_splits, shuffle=True, random_state).split(X)] for [n] rows:
    the shuffled row numbers are cut into consecutive test folds; each
    fold comes with the remaining row numbers as its training part, both
    in increasing order. Fewer rows than folds is a [ValueError]. *)
Definition KFold_split (n_splits random_state n : nat)
  : option (list (list nat * list nat)) :=
  if (n <? n_splits)%nat then None
  else Some ((fun test => (filter (fun i => i ∉ test) (seq 0 n),
                           filter (fun i => i ∈ test) (seq 0 n)))
             <$> chunks (fold_sizes n_splits n) (shuffle random_state n)).
End KFold.

End Metrics.

(** [list(range(start, stop, step))] for a positive step. *)
Definition py_range (start stop step : Z) : list pyval :=
  (fun k => PInt (start + Z.of_nat k * step))
    <$> seq 0 (Z.to_nat ((stop - start + step - 1) / step)).

(** The values of a generator that yields its [start] argument first and the
    results of float additions (or multiplications) afterwards. *)
Definition py_yielded (start : pyval) (values : list Q) : list pyval :=
  match values with
  | [] => []
  | _ :: rest => start :: (PFloat <$> rest)
  end.

(** ** class Training *)

Module Training.

(** Enough fuel for every generator of the grids below. *)
Definition fuel : nat := 1000.

Definition strs (l : list string) : list pyval := PStr <$> l.

(** The [param_grid] dictionaries of [hyperparameters]. The generators
    run on binary64 numbers, from the numbers their literal arguments
    denote; a candidate is written as the rational it is. *)
Definition svm_grid : option (list (string * list pyval)) :=
  C ← Binary64.frange fuel (Binary64.of_Z 0) (Binary64.of_Q 1.0) (Binary64.of_Q 0.1);
  gamma ← Binary64.frange fuel (Binary64.of_Q 0.02) (Binary64.of_Q 0.05)
            (Binary64.of_Q 0.001);
  Some [("C", py_yielded (PInt 0) (Binary64.to_Q <$> C));
        ("kernel", strs ["linear"; "poly"; "rbf"; "sigmoid"]);
        ("class_weight", strs ["balanced"]);
        ("degree", py_range 1 6 1);
        ("gamma", py_yielded (PFloat 0.02) (Binary64.to_Q <$> gamma))].

Definition random_forest_grid : option (list (string * list pyval)) :=
  Some [("n_estimators", py_range 50 100 10);
        ("max_features", strs ["sqrt"; "log2"]);
        ("max_depth", [PNone]);
        ("min_samples_split", py_range 2 8 1);
        ("min_samples_leaf", py_range 1 5 1);
        ("bootstrap", [PBool false])].

Definition knn_grid : option (list (string * list pyval)) :=
  Some [("algorithm", strs ["auto"; "ball_tree"; "kd_tree"; "brute"]);
        ("leaf_size", py_range 10 50 10);
        ("metric", strs ["euclidean"; "manhattan"; "chebyshev"; "minkowski"]);
        ("n_neighbors", py_range 1 10 1);
        ("p", [PInt 1; PInt 2]);
        ("weights", strs ["uniform"; "distance"])].

Definition qda_grid : option (list (string * list pyval)) :=
  reg_param ← Binary64.frange fuel (Binary64.of_Q 0.1) (Binary64.of_Q 1.0)
                (Binary64.of_Q 0.1);
  Some [("reg_param", py_yielded (PFloat 0.1) (Binary64.to_Q <$> reg_param))].

Definition gaussian_nb_grid : option (list (string * list pyval)) :=
  var_smoothing ← Binary64.mrange fuel (Binary64.of_Q 0.00001) (Binary64.of_Z 1)
                    (Binary64.of_Z 10);
  Some [("var_smoothing", py_yielded (PFloat 0.00001) (Binary64.to_Q <$> var_smoothing))].

(** [np.logspace(-2, 2, 5)] and [np.logspace(-2, 0, 3)] are written out. *)
Definition gaussian_pc_grid : option (list (string * list pyval)) :=
  Some [("c", PFloat <$> [0.01; 0.1; 1; 10; 100]);
        ("l", PFloat <$> [0.01; 0.1; 1; 10; 100]);
        ("n", PFloat <$> [0.01; 0.1; 1]);
        ("max_iter_predict", py_range 100 500 100)]%Q.

(** The [GridSearchCV] object [hyperparameters] builds for a family. The
    conditions of the source's [if] statements exclude each other; with no
    match [grid_search] is unbound and its use raises. *)
Definition grid_search_for (model : string) : option grid_search :=
  if String.eqb model "svm" then
    g ← svm_grid; Some (Build_grid_search (SVC ∅) g 5 None)
  else if String.eqb model "random_forest" then
    g ← random_forest_grid; Some (Build_grid_search (RandomForestClassifier ∅) g 5 None)
  else if String.eqb model "knn" then
    g ← knn_grid; Some (Build_grid_search (KNeighborsClassifier ∅) g 5 (Some "accuracy"))
  else if String.eqb model "qda" then
    g ← qda_grid;
    Some (Build_grid_search (QuadraticDiscriminantAnalysis ∅) g 50 (Some "accuracy"))
  else if String.eqb model "gaussian_nb" then
    g ← gaussian_nb_grid; Some (Build_grid_search (GaussianNB ∅) g 5 (Some "accuracy"))
  else if String.eqb model "gaussian_pc" then
    g ← gaussian_pc_grid; Some (Build_grid_search CustomGPC g 5 None)
  else None.

(** *** The aggregator (the loops over [params] and [best_hypers]) *)

(** [if key not in best_hypers: best_hypers[key] = []] and then
    [best_hypers[key].append(value)], on a dictionary in insertion order. *)
Fixpoint log_append (key : string) (value : pyval)
    (best_hypers : list (string * list pyval)) : list (string * list pyval) :=
  match best_hypers with
  | [] => [(key, [value])]
  | (k, vs) :: rest =>
      if String.eqb k key then (k, vs ++ [value]) :: rest
      else (k, vs) :: log_append key value rest
  end.

(** [for key, value in params.items(): ...] *)
Definition record_params (params : list (string * pyval))
    (best_hypers : list (string * list pyval)) : list (string * list pyval) :=
  fold_left (fun bh kv => log_append (fst kv) (snd kv) bh) params best_hypers.

(** The log after the given folds. *)
Definition record_folds (folds : list (list (string * pyval)))
  : list (string * list pyval) :=
  fold_left (fun bh params => record_params params bh) folds [].

(** The first [if]: "for float params - take the average". *)
Definition mean_rule (key : string) (value : list pyval)
    (final_hypers : gmap string pyval) : option (gmap string pyval) :=
  if forallb is_float_or_int value then
    m ← np_mean value; Some (<[key := m]> final_hypers)
  else Some final_hypers.

(** The second [if]: "for integer or string - take the mode";
    [most_common(1)[0]] raises [IndexError] on an empty counter. *)
Definition mode_rule (key : string) (value : list pyval)
    (final_hypers : gmap string pyval) : option (gmap string pyval) :=
  if forallb is_int_or_str value then
    match most_common_1 (Counter value) with
    | (mode, _) :: _ => Some (<[key := mode]> final_hypers)
    | [] => None
    end
  else Some final_hypers.

(** One turn of the loop over [best_hypers.items()]. *)
Definition aggregate_entry (final_hypers : gmap string pyval)
    (entry : string * list pyval) : option (gmap string pyval) :=
  final_hypers ← mean_rule (fst entry) (snd entry) final_hypers;
  mode_rule (fst entry) (snd entry) final_hypers.

(** [final_hypers], from the empty dictionary. *)
Definition aggregate (best_hypers : list (string * list pyval))
  : option (gmap string pyval) :=
  fold_left (fun acc entry => fh ← acc; aggregate_entry fh entry) best_hypers (Some ∅).

(** The estimator built from [final_hypers]; a missing kernel parameter is
    a [KeyError], an unknown family leaves [model] unbound. The keys of
    [final_hypers] are taken to be parameters of the constructor, as the
    parameter names of the grids are (another key would be a
    [TypeError]). *)
Definition build_model (model_type : string) (final_hypers : gmap string pyval)
  : option estimator :=
  if String.eqb model_type "svm" then Some (SVC final_hypers)
  else if String.eqb model_type "random_forest" then
    Some (RandomForestClassifier final_hypers)
  else if String.eqb model_type "knn" then Some (KNeighborsClassifier final_hypers)
  else if String.eqb model_type "qda" then
    Some (QuadraticDiscriminantAnalysis final_hypers)
  else if String.eqb model_type "gaussian_nb" then Some (GaussianNB final_hypers)
  else if String.eqb model_type "gaussian_pc" then
    c ← final_hypers !! "c";
    l ← final_hypers !! "l";
    n ← final_hypers !! "n";
    max_iter_predict ← final_hypers !! "max_iter_predict";
    Some (GaussianProcessClassifier c l n max_iter_predict)
  else None.

(** *** The pipeline *)

Section Pipeline.
Context `{Sklearn}.

(** [hyperparameters]: the grid search of one family on a training slice;
    its result is [grid_search.best_params_]. *)
Definition hyperparameters (model : string) (X_train : matrix) (y_train : list Z)
  : M (list (string * pyval)) :=
  log (call_hyperparameters model X_train y_train);;
  grid_search ← lift (grid_search_for model);
  lift (GridSearchCV_fit grid_search X_train y_train).

(** [run_model]: fit, predict, report, export the misclassified sessions
    and return the accuracy. *)
Definition run_model (model : estimator) (X_train : matrix) (y_train : list Z)
    (X_test : matrix) (y_test : list Z) (sessions_test : list string) : M Q :=
  log (call_run_model model X_train y_train X_test y_test sessions_test);;
  fitted_model ← lift (fit model X_train y_train);
  let y_pred := predict fitted_model X_test in
  (* classification_report(y_test, y_pred) *)
  lift (Metrics.check_consistent_length y_test y_pred);;
  cm ← lift (Metrics.confusion_matrix y_test y_pred);
  lift (Analysis.confusion cm);;
  lift (Analysis.roc y_test y_pred);;
  (* record misclassified sessions *)
  missed ← lift (mask_select sessions_test
                   (zip_with (fun t p => negb (t =? p)) y_test y_pred));
  log (to_csv "misclassified_sessions.csv" missed);;
  lift (Metrics.accuracy_score y_test y_pred).

(** The six arrays of [train_test_split(X, y, sessions, test_size=0.2,
    random_state=42, stratify=y)]: one choice of row numbers indexes all
    three inputs. *)
Definition train_test_split (X : raw_matrix) (y : list Z) (sessions : list string)
  : option (raw_matrix * raw_matrix * list Z * list Z * list string * list string) :=
  if decide (length X = length y ∧ length X = length sessions) then
    ix ← split_indices 0.2 42 (length X) y;
    X_train ← select X (fst ix);
    X_test ← select X (snd ix);
    y_train ← select y (fst ix);
    y_test ← select y (snd ix);
    sessions_train ← select sessions (fst ix);
    sessions_test ← select sessions (snd ix);
    Some (X_train, X_test, y_train, y_test, sessions_train, sessions_test)
  else None.

(** The imputer and the scaler, their fitted parameters and the two
    transformed tables ([fit_transform] is [fit] followed by
    [transform]). *)
Record preprocessed : Type := {
  imputer : imputer_params;
  scaler : scaler_params;
  X_train_std : matrix;
  X_test_std : matrix;
}.

Definition preprocess (X_train X_test : raw_matrix) : preprocessed :=
  let imputer := SimpleImputer_fit "constant" 0 X_train in
  let X_train := SimpleImputer_transform imputer X_train in
  let X_test := SimpleImputer_transform imputer X_test in
  let scaler := StandardScaler_fit X_train in
  let X_train := StandardScaler_transform scaler X_train in
  let X_test := StandardScaler_transform scaler X_test in
  {| imputer := imputer; scaler := scaler;
     X_train_std := X_train; X_test_std := X_test |}.

(** The body of the outer loop for one fold. *)
Definition outer_fold (model_type : string) (X_train : matrix) (y_train : list Z)
    (fold : list nat * list nat) (best_hypers : list (string * list pyval))
  : M (list (string * list pyval)) :=
  let train_ix := fst fold in
  let test_ix := snd fold in
  X_train_val ← lift (select X_train train_ix);
  X_test_val ← lift (select X_train test_ix);
  y_train_val ← lift (select y_train train_ix);
  y_test_val ← lift (select y_train test_ix);
  params ← hyperparameters model_type X_train_val y_train_val;
  mret (record_params params best_hypers).

(** Everything after the split: preprocessing, the outer loop, the
    aggregation and the final model. *)
Definition cross_validate (X_train X_test : raw_matrix) (y_train y_test : list Z)
    (sessions_test : list string) (model_type : string)
  : M (matrix * list Z * matrix * list Z * estimator) :=
  let pre := preprocess X_train X_test in
  let X_train := X_train_std pre in
  let X_test := X_test_std pre in
  folds ← lift (Metrics.KFold_split 10 42 (length X_train));
  best_hypers ← for_each folds (outer_fold model_type X_train y_train) [];
  final_hypers ← lift (aggregate best_hypers);
  model ← lift (build_model model_type final_hypers);
  run_model model X_train y_train X_test y_test sessions_test;;
  mret (X_train, y_train, X_test, y_test, model).

Definition nested_cross_validation (X : raw_matrix) (y : list Z)
    (sessions : list string) (model_type : string)
  : M (matrix * list Z * matrix * list Z * estimator) :=
  parts ← lift (train_test_split X y sessions);
  let '(X_train, X_test, y_train, y_test, _, sessions_test) := parts in
  cross_validate X_train X_test y_train y_test sessions_test model_type.

End Pipeline.

End Training.

(** ** The aggregator with numpy's arithmetic *)

(** The loop over [best_hypers.items()] once more, with [np.mean] computed
    as numpy computes it, in binary64 ([Training.mean_rule] has the exact
    mean). The second rule is the same. *)
Module Rounded.

(** The first [if]: "for float params - take the average". *)
Definition mean_rule (key : string) (value : list pyval)
    (final_hypers : gmap string pyval) : option (gmap string pyval) :=
  if forallb is_float_or_int value then
    m ← Binary64.np_mean value; Some (<[key := m]> final_hypers)
  else Some final_hypers.

(** One turn of the loop over [best_hypers.items()]. *)
Definition aggregate_entry (final_hypers : gmap string pyval)
    (entry : string * list pyval) : option (gmap string pyval) :=
  final_hypers ← mean_rule (fst entry) (snd entry) final_hypers;
  Training.mode_rule (fst entry) (snd entry) final_hypers.

(** [final_hypers], from the empty dictionary. *)
Definition aggregate (best_hypers : list (string * list pyval))
  : option (gmap string pyval) :=
  fold_left (fun acc entry => fh ← acc; aggregate_entry fh entry) best_hypers (Some ∅).

End Rounded.

(** ** class BaseModel and its subclasses *)

Module BaseModel.

(** The attributes [__init__] sets. *)
Record t : Type := {
  X : raw_matrix;
  y : list Z;
  sessions : list string;
  class_weighting : list pyval;
  model_type : option string;
}.

(** [BaseModel.__init__]: the data of [extract_data], and no family yet. *)
Definition init (df : list Processing.observation) : option t :=
  data ← Processing.extract_data df;
  let '(X, y, sessions, class_weighting) := data in
  Some {| X := X; y := y; sessions := sessions;
          class_weighting := class_weighting; model_type := None |}.

(** The constructor of a subclass: [super().__init__()] and then the
    family's keyword. *)
Definition init_subclass (keyword : string) (df : list Processing.observation)
  : option t :=
  self ← init df;
  Some {| X := X self; y := y self; sessions := sessions self;
          class_weighting := class_weighting self; model_type := Some keyword |}.

Section Run.
Context `{Sklearn}.

(** [BaseModel.run] *)
Definition run (self : t) : M unit :=
  match model_type self with
  | None => lift None
  | Some model_type =>
      res ← Training.nested_cross_validation (X self) (y self) (sessions self) model_type;
      let '(X_train, y_train, _, _, model) := res in
      lift (plot model_type X_train y_train model)
  end.
End Run.

End BaseModel.

(** ** The generators on binary64 floats *)

(** ** Specifications *)

(** The notions the properties are stated with: first the statistical
    ones, which do not depend on the code above, then views of the code's
    data (the log, the trace, the grids). *)
Module Spec.

(** How often a value occurs in a list, up to Python's equality. *)
Definition count_py (x : pyval) (l : list pyval) : nat :=
  length (List.filter (py_eqb x) l).

(** [m] is the mode of [l], ties going to the value met first: [m] stands
    at some position, nothing occurs more often than it, and everything
    that stands before it occurs less often. *)
Definition is_mode (m : pyval) (l : list pyval) : Prop :=
  ∃ i : nat,
    l !! i = Some m ∧
    (∀ x, x ∈ l → (count_py x l <= count_py m l)%nat) ∧
    (∀ j x, (j < i)%nat → l !! j = Some x → (count_py x l < count_py m l)%nat).

(** [q] is the arithmetic mean of the numbers [l]. *)
Definition is_mean (q : Q) (l : list Q) : Prop :=
  (q * inject_Z (Z.of_nat (length l)) == fold_right Qplus 0 l)%Q.

(** The values are all integers ([int] or its subclass [bool]). *)
Definition all_int (l : list pyval) : Prop := Forall (fun x => is_int x = true) l.

(** The values are all numbers ([int], [bool] or [float]). *)
Definition all_numeric (l : list pyval) : Prop :=
  Forall (fun x => is_float_or_int x = true) l.

(** The values are all integers or strings. *)
Definition all_discrete (l : list pyval) : Prop :=
  Forall (fun x => is_int_or_str x = true) l.

(** The numbers of a list of numeric values. *)
Definition numbers (l : list pyval) : list Q := omap py_num l.

(** The value a dictionary in insertion order holds for a key. *)
Fixpoint lookup_log (key : string) (log : list (string * list pyval))
  : option (list pyval) :=
  match log with
  | [] => None
  | (k, vs) :: rest => if String.eqb k key then Some vs else lookup_log key rest
  end.

(** *** Views of counters, logs and traces *)

(** The distinct values of a list, each at its first occurrence. *)
Fixpoint nub (l : list pyval) : list pyval :=
  match l with
  | [] => []
  | x :: l' => x :: List.filter (fun y => negb (py_eqb x y)) (nub l')
  end.

(** No two keys are equal. *)
Fixpoint distinct (ks : list pyval) : Prop :=
  match ks with
  | [] => True
  | k :: ks' => Forall (fun k' => py_eqb k k' = false) ks' ∧ distinct ks'
  end.

(** A counter whose keys are [ks] and whose counts are given by [f]. *)
Definition tally (f : pyval → nat) (ks : list pyval) : list (pyval * nat) :=
  (fun k => (k, f k)) <$> ks.

(** A dictionary: no key twice; and no key without a value, because a key
    is created when its first value is appended. *)
Definition wf_log (log : list (string * list pyval)) : Prop :=
  NoDup (fst <$> log) ∧ Forall (fun entry => snd entry ≠ []) log.

(** One turn of the loop of [Training.aggregate], on its accumulator. *)
Definition aggregate_step (acc : option (gmap string pyval))
    (entry : string * list pyval) : option (gmap string pyval) :=
  fh ← acc; Training.aggregate_entry fh entry.

(** One turn of the loop of [Rounded.aggregate], on its accumulator. *)
Definition rounded_step (acc : option (gmap string pyval))
    (entry : string * list pyval) : option (gmap string pyval) :=
  fh ← acc; Rounded.aggregate_entry fh entry.

(** An integer fits numpy's int64 (nothing is asked of other values). *)
Definition in_int64 (x : pyval) : Prop :=
  match x with
  | PInt z => - 2 ^ 63 <= z < 2 ^ 63
  | _ => True
  end.

(** The integers of a log all fit int64. *)
Definition int64_log (log : list (string * list pyval)) : Prop :=
  Forall (fun entry => Forall in_int64 (snd entry)) log.

(** The [k]-th value of an arithmetic progression. *)
Definition nth_value (start step : Q) (k : nat) : Q :=
  (start + inject_Z (Z.of_nat k) * step)%Q.

(** The number of observations with label [c]. *)
Definition count_label (c : Z) (y : list Z) : nat :=
  length (List.filter (fun v => v =? c) y).

(** The sessions whose prediction differs from their label, position by
    position. *)
Fixpoint misclassified (sessions : list string) (y_test y_pred : list Z)
  : list string :=
  match sessions, y_test, y_pred with
  | s :: sessions', t :: y_test', p :: y_pred' =>
      if t =? p then misclassified sessions' y_test' y_pred'
      else s :: misclassified sessions' y_test' y_pred'
  | _, _, _ => []
  end.

(** An event is a call of the hyper-parameter search. *)
Definition is_search (ev : event) : Prop :=
  match ev with
  | call_hyperparameters _ _ _ => True
  | _ => False
  end.

(** The training table after imputation and scaling; no test partition is
    involved. *)
Definition train_table `{Sklearn} (X_train : raw_matrix) : matrix :=
  Training.X_train_std (Training.preprocess X_train []).

(** The same object with another class weighting. *)
Definition with_class_weighting (w : list pyval) (self : BaseModel.t) : BaseModel.t :=
  {| BaseModel.X := BaseModel.X self; BaseModel.y := BaseModel.y self;
     BaseModel.sessions := BaseModel.sessions self;
     BaseModel.class_weighting := w;
     BaseModel.model_type := BaseModel.model_type self |}.

(** The candidates a family's grid has for a parameter. *)
Definition grid_candidates (model : string) (key : string) : option (list pyval) :=
  gs ← Training.grid_search_for model;
  snd <$> List.find (fun kv => String.eqb (fst kv) key) (gs_param_grid gs).

(** A call of the search on a selection of rows of the given table. *)
Definition searches_rows_of (model : string) (X_train : matrix) (y_train : list Z)
    (ev : event) : Prop :=
  ∃ Xs ys, ev = call_hyperparameters model Xs ys ∧ Xs ⊆ X_train ∧ ys ⊆ y_train.

End Spec.

Import Spec.

(** ** A small instance of the collaborators *)

(** Stand-ins for the library, simple enough to run the pipeline on a small
    table: the split keeps the last rows for testing, the imputer fills
    with its constant, the scaler and the shuffle change nothing, the grid
    search returns the first candidate of every parameter, and the
    classifier predicts 1 for a row whose first feature is positive. *)
Module Example.

Definition first_candidates (gs : grid_search) : option (list (string * pyval)) :=
  mapM (fun kv => v ← head (snd kv); Some (fst kv, v)) (gs_param_grid gs).

Definition threshold (row : list Q) : Z :=
  match row with
  | x :: _ => if Qlt_bool 0 x then 1 else 0
  | [] => 0
  end.

Definition last_rows (test_size : Q) (n : nat) : list nat * list nat :=
  let n_test := Z.to_nat (Qceiling (test_size * inject_Z (Z.of_nat n))) in
  (seq 0 (n - n_test), seq (n - n_test) n_test).

Definition fill (fill_value : Q) (X : raw_matrix) : matrix :=
  map (map (default fill_value)) X.

Definition toy : Sklearn := {|
  split_indices test_size _ n _ := Some (last_rows test_size n);
  imputer_params := Q;
  SimpleImputer_fit _ fill_value _ := fill_value;
  SimpleImputer_transform := fill;
  scaler_params := unit;
  StandardScaler_fit _ := tt;
  StandardScaler_transform _ X := X;
  shuffle _ n := seq 0 n;
  GridSearchCV_fit gs _ _ := first_candidates gs;
  fitted := unit;
  fit _ _ _ := Some tt;
  predict _ X := map threshold X;
  roc_curve _ _ := Some ([], [], []);
  roc_auc_score _ _ := Some 0.5%Q;
  plot _ _ _ _ := Some tt;
|}.

(** A training table of one row and a test table of three. *)
Definition X_one : matrix := [[1%Q]].
Definition X_three : matrix := [[1%Q]; [(-1)%Q]; [2%Q]].

(** Fifteen sessions with one feature (one of them missing) and alternating
    labels. *)
Definition sessions15 : list Processing.observation :=
  (fun i => Processing.Build_observation
              ("s" +:+ pretty i) (Z.of_nat i mod 2)
              [if (i =? 4)%nat then None else Some (inject_Z (Z.of_nat i) - 7)%Q])
    <$> seq 0 15.

Definition X15 : raw_matrix := Processing.Features <$> sessions15.
Definition y15 : list Z := Processing.State <$> sessions15.

(** *** Logs and tables for the examples *)

(** Three folds that chose the polynomial degrees 1, 1 and 4. *)
Definition degree_folds : list (list (string * pyval)) :=
  [[("degree", PInt 1)]; [("degree", PInt 1)]; [("degree", PInt 4)]].

(** The log [{"C": [0.1, 0.3, 0.2]}]. *)
Definition C_folds : list (list (string * pyval)) :=
  [[("C", PFloat 0.1)]; [("C", PFloat 0.3)]; [("C", PFloat 0.2)]].

(** The log [{"kernel": ["rbf", "rbf", "linear"]}]. *)
Definition kernel_folds : list (list (string * pyval)) :=
  [[("kernel", PStr "rbf")]; [("kernel", PStr "rbf")]; [("kernel", PStr "linear")]].

(** Two folds that chose a float and a string for the same parameter. *)
Definition mixed_folds : list (list (string * pyval)) :=
  [[("max_features", PFloat 0.5)]; [("max_features", PStr "sqrt")]].

(** Three sessions of class 0 and two of class 1: the weighting is
    [[1, 3/2]]. *)
Definition five_sessions : list Processing.observation :=
  [Processing.Build_observation "a.csv" 0 [Some 1%Q]; Processing.Build_observation "b.csv" 1 [Some 2%Q];
   Processing.Build_observation "c.csv" 0 [None]; Processing.Build_observation "d.csv" 1 [Some 4%Q];
   Processing.Build_observation "e.csv" 0 [Some 5%Q]].

(** What the interpreter prints for the values of [frange(0, 1.0, 0.1)]. *)
Definition unit_grid : list Q :=
  [0; 0.1; 0.2; 0.30000000000000004; 0.4; 0.5; 0.6; 0.7; 0.7999999999999999;
   0.8999999999999999; 0.9999999999999999]%Q.

End Example.

(** ** Notions for the further properties *)

Module MoreSpec.
Import Analysis.

(** [q] to the power [k]. *)
Fixpoint Qpow (q : Q) (k : nat) : Q :=
  match k with
  | O => 1%Q
  | S k' => (q * Qpow q k')%Q
  end.

(** The [k]-th value of a geometric progression. *)
Definition geo_value (start factor : Q) (k : nat) : Q := (start * Qpow factor k)%Q.

(** A statistic is not a number, or a fraction between 0 and 1. *)
Definition unit_or_nan (x : float64) : Prop :=
  x = NaN ∨ ∃ q, x = Finite q ∧ (0 <= q <= 1)%Q.

(** The values a dictionary in insertion order holds for a key (one at
    most, for a dictionary). *)
Definition values_of (key : string) (params : list (string * pyval)) : list pyval :=
  snd <$> List.filter (fun kv => String.eqb (fst kv) key) params.

(** The per-fold values of a key, none when the key is not in the log. *)
Definition log_values (key : string) (log : list (string * list pyval)) : list pyval :=
  default [] (lookup_log key log).

(** The labels of a confusion matrix. *)
Definition labels_of (y_true y_pred : list Z) : list Z :=
  merge_sort Z.le (remove_dups (y_true ++ y_pred)).

(** The labels are 0 and 1. *)
Definition binary (y : list Z) : Prop := Forall (fun x => x = 0 ∨ x = 1) y.

End MoreSpec.

Import MoreSpec.

(** ** The entry point *)

(** [main], after the prompt: [model_type] is the answer, stripped and in
    lower case; the table is the content of [ppg_dataframe.csv]. *)
Module Main.

(** [model_functions]: the menu entries and, for each, the [model_type]
    that the constructor of its class sets. *)
Definition model_functions : list (string * string) :=
  [("random forest", "random_forest"); ("svm", "svm");
   ("gaussian pc", "gaussian_pc"); ("knn", "knn");
   ("gaussian nb", "gaussian_nb"); ("qda", "qda")].

(** [model_functions[model_type]], when [model_type in model_functions]. *)
Definition menu (model_type : string) : option string :=
  snd <$> List.find (fun kv => String.eqb (fst kv) model_type) model_functions.

Section Main.
Context `{Sklearn}.

(** The object is built (which reads the table) and run; an answer that is
    not on the menu is reported and nothing else happens. *)
Definition main (model_type : string) (df : list Processing.observation) : M unit :=
  match menu model_type with
  | Some keyword =>
      model ← lift (BaseModel.init_subclass keyword df);
      BaseModel.run model
  | None => mret tt
  end.

End Main.

(** The keywords [hyperparameters] and [nested_cross_validation] test for. *)
Definition families : list string :=
  ["svm"; "random_forest"; "knn"; "qda"; "gaussian_nb"; "gaussian_pc"].

(** The values are all floats. *)
Definition all_float (vs : list pyval) : Prop := Forall (fun x => ∃ q, x = PFloat q) vs.

End Main.

(** ** More example data *)

Module MoreExample.

(** Three folds that agree on 70 trees and on no depth limit. *)
Definition agreeing_folds : list (list (string * pyval)) :=
  [[("n_estimators", PInt 70); ("max_depth", PNone)];
   [("n_estimators", PInt 70); ("max_depth", PNone)];
   [("n_estimators", PInt 70); ("max_depth", PNone)]].

(** Two folds of the Gaussian process search. *)
Definition gaussian_folds : list (list (string * pyval)) :=
  [[("c", PFloat 1); ("l", PFloat 0.1); ("max_iter_predict", PInt 100); ("n", PFloat 1)];
   [("c", PFloat 10); ("l", PFloat 0.1); ("max_iter_predict", PInt 100); ("n", PFloat 0.1)]].

(** Ten folds of the qda search that all chose 0.6. *)
Definition unanimous_floats : list (list (string * pyval)) :=
  replicate 10 [("reg_param", PFloat 0.6)].

End MoreExample.

(** ** Properties of Python equality and [Counter] *)

Module PyFacts.

Lemma py_eqb_refl x : py_eqb x x = true.
Proof.
  destruct x as [z|q|s|b|]; simpl; try apply Qeq_bool_refl; try done.
  apply String.eqb_refl.
Qed.

Lemma py_eqb_sym x y : py_eqb x y = py_eqb y x.
Proof.
  destruct x as [z|q|s|b|], y as [z'|q'|s'|b'|]; simpl; try done;
    try apply Qeq_bool_comm.
  apply String.eqb_sym.
Qed.

Lemma py_eqb_trans x y z :
  py_eqb x y = true → py_eqb y z = true → py_eqb x z = true.
Proof.
  destruct x as [a|a|a|a|], y as [b|b|b|b|], z as [c|c|c|c|];
    simpl; try done; try (apply Qeq_bool_trans).
  rewrite !String.eqb_eq. congruence.
Qed.

(** Equal values are equally frequent. *)
Lemma count_py_eqb x y l : py_eqb x y = true → count_py x l = count_py y l.
Proof.
  intros Hxy. unfold count_py. f_equal.
  apply List.filter_ext. intros a.
  destruct (py_eqb x a) eqn:Hxa, (py_eqb y a) eqn:Hya; try done.
  - rewrite py_eqb_sym in Hxy.
    by rewrite (py_eqb_trans _ _ _ Hxy Hxa) in Hya.
  - by rewrite (py_eqb_trans _ _ _ Hxy Hya) in Hxa.
Qed.

Lemma count_py_app x l1 l2 : count_py x (l1 ++ l2) = (count_py x l1 + count_py x l2)%nat.
Proof. unfold count_py. by rewrite List.filter_app, length_app. Qed.

End PyFacts.
Module CounterFacts.
Import PyFacts.

Lemma distinct_filter P ks : distinct ks → distinct (List.filter P ks).
Proof.
  induction ks as [|k ks IH]; simpl; [done|].
  intros [Hk Hks]. destruct (P k); simpl; [|by apply IH].
  split; [|by apply IH].
  rewrite Forall_forall in *. intros k' Hk'.
  apply list_elem_of_In, List.filter_In in Hk' as [Hk' _].
  by apply Hk, list_elem_of_In.
Qed.

Lemma nub_distinct l : distinct (nub l).
Proof.
  induction l as [|x l IH]; simpl; [done|].
  split; [|by apply distinct_filter].
  rewrite Forall_forall. intros k Hk.
  apply list_elem_of_In, List.filter_In in Hk as [_ Hk].
  by apply negb_true_iff in Hk.
Qed.

(** Every element has its key. *)
Lemma nub_covers l y : y ∈ l → ∃ k, k ∈ nub l ∧ py_eqb k y = true.
Proof.
  induction l as [|x l IH]; [by intros ?%elem_of_nil|].
  intros [->|Hy]%elem_of_cons; simpl.
  - exists x. split; [left|apply py_eqb_refl].
  - destruct (IH Hy) as (k & Hk & Hky).
    destruct (py_eqb x k) eqn:Hxk.
    + exists x. split; [left|]. by eapply py_eqb_trans.
    + exists k. split; [|done]. right.
      apply list_elem_of_In, List.filter_In. split; [by apply list_elem_of_In|].
      by rewrite Hxk.
Qed.

Lemma nub_subset l k : k ∈ nub l → k ∈ l.
Proof.
  induction l as [|x l IH]; simpl; [done|].
  intros [->|Hk]%elem_of_cons; [left|right].
  apply IH. apply list_elem_of_In, List.filter_In in Hk as [Hk _].
  by apply list_elem_of_In.
Qed.

Lemma existsb_nub x l :
  existsb (fun k => py_eqb k x) (nub l) = existsb (fun k => py_eqb k x) l.
Proof.
  apply eq_true_iff_eq. rewrite !existsb_exists. split.
  - intros (k & Hk & Hkx). exists k. split; [|done].
    by apply list_elem_of_In, nub_subset, list_elem_of_In.
  - intros (y & Hy & Hyx).
    apply list_elem_of_In, nub_covers in Hy as (k & Hk & Hky).
    exists k. split; [by apply list_elem_of_In|]. by eapply py_eqb_trans.
Qed.

Lemma nub_snoc l x :
  nub (l ++ [x]) =
  if existsb (fun k => py_eqb k x) (nub l) then nub l else nub l ++ [x].
Proof.
  induction l as [|a l IH]; simpl; [done|].
  rewrite IH. destruct (py_eqb a x) eqn:Hax; simpl.
  - destruct (existsb _ (nub l)); [done|].
    by rewrite List.filter_app; simpl; rewrite Hax; simpl; rewrite app_nil_r.
  - assert (existsb (fun k => py_eqb k x)
              (List.filter (fun y => negb (py_eqb a y)) (nub l))
            = existsb (fun k => py_eqb k x) (nub l)) as ->.
    { apply eq_true_iff_eq. rewrite !existsb_exists. split.
      - intros (k & [Hk _]%List.filter_In & Hkx). eauto.
      - intros (k & Hk & Hkx). exists k. split; [|done].
        apply List.filter_In. split; [done|].
        apply negb_true_iff. destruct (py_eqb a k) eqn:Hak; [|done].
        by rewrite (py_eqb_trans _ _ _ Hak Hkx) in Hax. }
    destruct (existsb _ (nub l)); [done|].
    by rewrite List.filter_app; simpl; rewrite Hax.
Qed.

Lemma counter_add_tally f x ks :
  distinct ks →
  counter_add x (tally f ks) =
  if existsb (fun k => py_eqb k x) ks
  then tally (fun k => if py_eqb k x then S (f k) else f k) ks
  else tally f ks ++ [(x, 1%nat)].
Proof.
  induction ks as [|k ks IH]; simpl; [done|].
  intros [Hk Hks]. destruct (py_eqb k x) eqn:Hkx; simpl.
  - f_equal. apply list_fmap_ext. intros i k' Hk'.
    apply list_elem_of_lookup_2 in Hk'.
    rewrite Forall_forall in Hk. specialize (Hk _ Hk').
    destruct (py_eqb k' x) eqn:Hk'x; [|done].
    rewrite (py_eqb_sym k' x) in Hk'x.
    by rewrite (py_eqb_trans _ _ _ Hkx Hk'x) in Hk.
  - rewrite (IH Hks). by destruct (existsb _ ks).
Qed.

Lemma Counter_snoc l x : Counter (l ++ [x]) = counter_add x (Counter l).
Proof. unfold Counter. by rewrite fold_left_app. Qed.

Lemma count_py_snoc k l x :
  count_py k (l ++ [x]) = if py_eqb k x then S (count_py k l) else count_py k l.
Proof.
  rewrite count_py_app. unfold count_py at 2. simpl.
  destruct (py_eqb k x); simpl; lia.
Qed.

Lemma count_py_none x l :
  existsb (fun k => py_eqb k x) l = false → count_py x l = O.
Proof.
  intros Hx. unfold count_py.
  induction l as [|a l IH]; simpl in *; [done|].
  apply orb_false_iff in Hx as [Hax Hl].
  rewrite py_eqb_sym, Hax. by apply IH.
Qed.

(** The counter of a list: its distinct values in the order in which they
    first occur, each with the number of its occurrences. *)
Lemma Counter_tally l : Counter l = tally (fun k => count_py k l) (nub l).
Proof.
  induction l as [|x l IH] using rev_ind; [done|].
  rewrite Counter_snoc, IH, counter_add_tally by apply nub_distinct.
  rewrite nub_snoc. destruct (existsb _ (nub l)) eqn:Hex.
  - apply list_fmap_ext. intros i k _. by rewrite count_py_snoc.
  - unfold tally. rewrite fmap_app. simpl. f_equal.
    + apply list_fmap_ext. intros i k Hk. rewrite count_py_snoc.
      destruct (py_eqb k x) eqn:Hkx; [|done].
      apply list_elem_of_lookup_2, list_elem_of_In in Hk.
      assert (existsb (fun k => py_eqb k x) (nub l) = true) as Hex'
        by (apply existsb_exists; exists k; by split).
      congruence.
    + rewrite count_py_snoc, py_eqb_refl, count_py_none; [done|].
      by rewrite <-existsb_nub.
Qed.

(** [max_count] returns the first item among [best :: items] with the
    largest count. *)
Lemma max_count_first best items :
  ∃ pre post,
    best :: items = pre ++ max_count best items :: post ∧
    Forall (fun kv => (snd kv < snd (max_count best items))%nat) pre ∧
    Forall (fun kv => (snd kv <= snd (max_count best items))%nat) post.
Proof.
  revert best. induction items as [|kv items IH]; intros best; simpl.
  - exists [], []. by repeat split.
  - destruct (snd best <? snd kv)%nat eqn:Hlt.
    + apply Nat.ltb_lt in Hlt.
      destruct (IH kv) as (pre & post & Heq & Hpre & Hpost).
      exists (best :: pre), post. rewrite Heq. split; [done|]. split; [|done].
      constructor; [|done].
      assert (snd kv <= snd (max_count kv items))%nat; [|lia].
      destruct pre as [|p pre]; simpl in Heq; injection Heq as Hhd Htl.
      * by rewrite <-Hhd.
      * apply Forall_cons in Hpre as [Hp _]. rewrite <-Hhd in Hp. lia.
    + apply Nat.ltb_ge in Hlt.
      destruct (IH best) as (pre & post & Heq & Hpre & Hpost).
      destruct pre as [|p pre]; simpl in Heq; injection Heq as Hhd Htl.
      * exists [], (kv :: items). rewrite <-Hhd. split; [done|]. split; [done|].
        rewrite <-Hhd in Hpost. constructor; [done|]. by rewrite Htl.
      * apply Forall_cons in Hpre as [Hp Hpre]. rewrite <-Hhd in Hp.
        exists (best :: kv :: pre), post.
        split; [simpl; by do 2 f_equal|]. split; [|done].
        constructor; [done|]. constructor; [lia|done].
Qed.

(** Where a key of [nub] stands in the list: at the first occurrence of its
    value, and everything before is equal to an earlier key. *)
Lemma nub_first l pre m post :
  nub l = pre ++ m :: post →
  ∃ i, l !! i = Some m ∧
       ∀ j x, (j < i)%nat → l !! j = Some x → ∃ k, k ∈ pre ∧ py_eqb k x = true.
Proof.
  revert pre m post. induction l as [|a l IH]; intros pre m post Hnub; simpl in *.
  { by destruct pre. }
  destruct pre as [|p pre]; simpl in Hnub; injection Hnub as Hhd Htl.
  { subst. exists O. split; [done|]. intros; lia. }
  subst p.
  (* the key [m] survives the filter: find it in [nub l] *)
  assert (∃ pre' post', nub l = pre' ++ m :: post' ∧
            pre = List.filter (fun y => negb (py_eqb a y)) pre')
    as (pre' & post' & Hl & Hpre).
  { clear IH. revert pre Htl. generalize (nub l) as ks.
    induction ks as [|k ks IHks]; intros pre Htl; simpl in Htl.
    { by destruct pre. }
    destruct (negb (py_eqb a k)) eqn:Hak.
    - destruct pre as [|p pre]; simpl in Htl; injection Htl as Hhd Htl.
      + subst. exists [], ks. by split.
      + subst p. destruct (IHks _ Htl) as (pre' & post' & -> & ->).
        exists (k :: pre'), post'. split; [done|]. simpl. by rewrite Hak.
    - destruct (IHks _ Htl) as (pre' & post' & -> & ->).
      exists (k :: pre'), post'. split; [done|]. simpl. by rewrite Hak. }
  destruct (IH _ _ _ Hl) as (i & Hi & Hbefore).
  exists (S i). split; [done|].
  intros [|j] x Hj Hx; simpl in Hx.
  - injection Hx as <-. exists a. split; [left|apply py_eqb_refl].
  - destruct (Hbefore j x) as (k & Hk & Hkx); [lia|done|].
    destruct (py_eqb a k) eqn:Hak.
    + exists a. split; [left|]. by eapply py_eqb_trans.
    + exists k. split; [|done]. right. rewrite Hpre.
      apply list_elem_of_In, List.filter_In. split; [by apply list_elem_of_In|].
      by rewrite Hak.
Qed.

(** The first of the most common values of a non-empty list is its mode. *)
Lemma most_common_mode l :
  l ≠ [] → ∃ m n, most_common_1 (Counter l) = [(m, n)] ∧ is_mode m l.
Proof.
  intros Hl. rewrite Counter_tally.
  destruct (nub l) as [|k0 ks] eqn:Hnub.
  { destruct l; [done|discriminate]. }
  simpl. set (f := fun k => count_py k l).
  destruct (max_count_first (k0, f k0) (tally f ks))
    as (pre & post & Heq & Hpre & Hpost).
  destruct (max_count (k0, f k0) (tally f ks)) as [m n] eqn:Hmax.
  exists m, n. split; [f_equal; exact Hmax|].
  change ((k0, f k0) :: tally f ks) with (tally f (k0 :: ks)) in Heq.
  rewrite <-Hnub in Heq. unfold tally in Heq.
  apply fmap_app_inv in Heq as (kpre & krest & -> & Hrest & Hsplit).
  destruct krest as [|m' kpost]; [done|]. simpl in Hrest.
  injection Hrest as <- Hn Hpost'. subst n post. simpl in *.
  destruct (nub_first _ _ _ _ Hsplit) as (i & Hi & Hbefore).
  exists i. split; [done|]. split.
  - intros x Hx. apply nub_covers in Hx as (k & Hk & Hkx).
    rewrite <-(count_py_eqb _ _ _ Hkx). rewrite Hsplit in Hk.
    apply elem_of_app in Hk as [Hk|Hk].
    + rewrite Forall_fmap, Forall_forall in Hpre.
      specialize (Hpre _ Hk). simpl in Hpre. unfold f in *. lia.
    + apply elem_of_cons in Hk as [->|Hk]; [done|].
      rewrite Forall_fmap, Forall_forall in Hpost.
      specialize (Hpost _ Hk). simpl in Hpost. unfold f in *. lia.
  - intros j x Hj Hx. destruct (Hbefore j x Hj Hx) as (k & Hk & Hkx).
    rewrite <-(count_py_eqb _ _ _ Hkx).
    rewrite Forall_fmap, Forall_forall in Hpre.
    specialize (Hpre _ Hk). simpl in Hpre. unfold f in *. lia.
Qed.

End CounterFacts.

(** ** Properties of the aggregator *)

Module AggregatorFacts.
Import PyFacts CounterFacts Training Example.

Lemma forallb_Forall {A} (f : A → bool) l :
  forallb f l = true ↔ Forall (fun x => f x = true) l.
Proof.
  induction l as [|x l IH]; simpl; [by split|].
  rewrite andb_true_iff, Forall_cons. by rewrite IH.
Qed.

Lemma forallb_not_Forall {A} (f : A → bool) l :
  ¬ Forall (fun x => f x = true) l → forallb f l = false.
Proof.
  intros Hn. destruct (forallb f l) eqn:Hf; [|done].
  by apply forallb_Forall in Hf.
Qed.

(** *** The mean *)

Lemma mapM_py_num vs : all_numeric vs → mapM py_num vs = Some (numbers vs).
Proof.
  unfold numbers. induction 1 as [|x vs Hx _ IH]; [done|].
  destruct x; simpl in *; try done; by rewrite IH.
Qed.

Lemma length_numbers vs : all_numeric vs → length (numbers vs) = length vs.
Proof.
  intros Hnum. symmetry. by eapply length_mapM, mapM_py_num.
Qed.

Lemma Qsum_from a l : (fold_left Qplus l a == a + fold_right Qplus 0 l)%Q.
Proof.
  revert a. induction l as [|x l IH]; intros a; simpl.
  - by rewrite Qplus_0_r.
  - rewrite IH. by rewrite Qplus_assoc.
Qed.

Lemma np_mean_is_mean vs :
  vs ≠ [] → all_numeric vs →
  ∃ q, np_mean vs = Some (PFloat q) ∧ is_mean q (numbers vs).
Proof.
  intros Hne Hnum. unfold np_mean. rewrite (mapM_py_num _ Hnum). simpl.
  eexists. split; [done|]. unfold is_mean, Qsum.
  rewrite Qsum_from, Qplus_0_l.
  assert (¬ (inject_Z (Z.of_nat (length (numbers vs))) == 0)%Q) as Hn.
  { rewrite length_numbers by done. destruct vs; [done|].
    simpl. unfold Qeq. simpl. lia. }
  by field.
Qed.

(** *** The log of the outer loop *)

Lemma log_append_keys key value log :
  fst <$> log_append key value log =
  if decide (key ∈ fst <$> log) then fst <$> log else (fst <$> log) ++ [key].
Proof.
  induction log as [|[k vs] log IH]; [done|]. cbn [log_append].
  destruct (String.eqb k key) eqn:Hk; rewrite !fmap_cons; cbn [fst].
  - apply String.eqb_eq in Hk as ->.
    rewrite decide_True; [done|left].
  - apply String.eqb_neq in Hk. rewrite IH.
    destruct (decide (key ∈ fst <$> log)) as [Hin|Hin].
    + rewrite decide_True; [done|by right].
    + rewrite decide_False; [done|].
      intros [?|?]%elem_of_cons; congruence.
Qed.

Lemma log_append_wf key value log : wf_log log → wf_log (log_append key value log).
Proof.
  intros [Hdup Hne]. split.
  - rewrite log_append_keys. case_decide; [done|].
    apply NoDup_app. split; [done|]. split; [|apply NoDup_singleton].
    intros k Hk ->%list_elem_of_singleton. done.
  - clear Hdup. induction Hne as [|[k vs] log Hvs Hlog IH]; simpl.
    + by repeat constructor.
    + destruct (String.eqb k key); constructor; simpl; try done.
      by destruct vs.
Qed.

Lemma record_params_wf params log : wf_log log → wf_log (record_params params log).
Proof.
  unfold record_params. revert log.
  induction params as [|[k v] params IH]; intros log Hwf; simpl; [done|].
  by apply IH, log_append_wf.
Qed.

Lemma record_folds_wf folds : wf_log (record_folds folds).
Proof.
  unfold record_folds.
  assert (wf_log []) as Hnil by (split; constructor).
  revert Hnil. generalize (@nil (string * list pyval)) as log.
  induction folds as [|params folds IH]; intros log Hwf; simpl; [done|].
  by apply IH, record_params_wf.
Qed.

Lemma lookup_log_None key log : lookup_log key log = None ↔ key ∉ fst <$> log.
Proof.
  induction log as [|[k vs] log IH]; simpl.
  - split; [|done]. intros _ Hin. by apply elem_of_nil in Hin.
  - destruct (String.eqb k key) eqn:Hk.
    + apply String.eqb_eq in Hk as ->. split; [done|]. intros []. left.
    + apply String.eqb_neq in Hk. rewrite IH, not_elem_of_cons.
      split; [by split|by intros [_ ?]].
Qed.

(** *** One entry *)

Lemma mode_rule_other key vs fh fh' k :
  mode_rule key vs fh = Some fh' → k ≠ key → fh' !! k = fh !! k.
Proof.
  unfold mode_rule. intros Hr Hk.
  destruct (forallb is_int_or_str vs); [|by simplify_eq].
  destruct (most_common_1 (Counter vs)) as [|[m n] ?]; simplify_eq.
  by rewrite lookup_insert_ne.
Qed.

Lemma mean_rule_other key vs fh fh' k :
  mean_rule key vs fh = Some fh' → k ≠ key → fh' !! k = fh !! k.
Proof.
  unfold mean_rule. intros Hr Hk.
  destruct (forallb is_float_or_int vs); [|by simplify_eq].
  destruct (np_mean vs); simplify_eq/=. by rewrite lookup_insert_ne.
Qed.

Lemma aggregate_entry_other key vs fh fh' k :
  aggregate_entry fh (key, vs) = Some fh' → k ≠ key → fh' !! k = fh !! k.
Proof.
  unfold aggregate_entry. simpl. intros Hr Hk.
  destruct (mean_rule key vs fh) as [fh1|] eqn:Hmean; simplify_eq/=.
  rewrite (mode_rule_other _ _ _ _ _ Hr Hk).
  by apply (mean_rule_other _ _ _ _ _ Hmean).
Qed.

Lemma all_int_numeric vs : all_int vs → all_numeric vs.
Proof. intros Hint. eapply Forall_impl; [done|]. by intros []. Qed.

Lemma all_int_discrete vs : all_int vs → all_discrete vs.
Proof. intros Hint. eapply Forall_impl; [done|]. by intros []. Qed.

Lemma numeric_discrete_int vs : all_numeric vs → all_discrete vs → all_int vs.
Proof.
  unfold all_numeric, all_discrete, all_int.
  intros Hn Hd. apply Forall_forall. intros x Hx.
  rewrite Forall_forall in Hn, Hd. specialize (Hn x Hx). specialize (Hd x Hx).
  by destruct x.
Qed.

(** The first rule: the mean for numbers, nothing otherwise. *)
Lemma mean_rule_numeric key vs :
  vs ≠ [] → all_numeric vs →
  ∃ q, is_mean q (numbers vs) ∧
       ∀ fh, mean_rule key vs fh = Some (<[key := PFloat q]> fh).
Proof.
  intros Hne Hnum. unfold mean_rule.
  rewrite (proj2 (forallb_Forall _ _) Hnum).
  destruct (np_mean_is_mean vs Hne Hnum) as (q & -> & Hq). by exists q.
Qed.

Lemma mean_rule_skip key vs fh : ¬ all_numeric vs → mean_rule key vs fh = Some fh.
Proof. intros Hn. unfold mean_rule. by rewrite forallb_not_Forall. Qed.

(** The second rule: the mode for integers and strings, nothing otherwise. *)
Lemma mode_rule_discrete key vs :
  vs ≠ [] → all_discrete vs →
  ∃ m, is_mode m vs ∧ ∀ fh, mode_rule key vs fh = Some (<[key := m]> fh).
Proof.
  intros Hne Hd. unfold mode_rule.
  rewrite (proj2 (forallb_Forall _ _) Hd).
  destruct (most_common_mode vs Hne) as (m & n & -> & Hm). by exists m.
Qed.

Lemma mode_rule_skip key vs fh : ¬ all_discrete vs → mode_rule key vs fh = Some fh.
Proof. intros Hn. unfold mode_rule. by rewrite forallb_not_Forall. Qed.

Lemma all_numeric_dec vs : {all_numeric vs} + {¬ all_numeric vs}.
Proof. apply Forall_dec. intros x. destruct (is_float_or_int x); [by left|by right]. Qed.

Lemma all_discrete_dec vs : {all_discrete vs} + {¬ all_discrete vs}.
Proof. apply Forall_dec. intros x. destruct (is_int_or_str x); [by left|by right]. Qed.

(** An entry with a value never raises. *)
Lemma aggregate_entry_total key vs fh :
  vs ≠ [] → is_Some (aggregate_entry fh (key, vs)).
Proof.
  intros Hne. unfold aggregate_entry. simpl.
  destruct (all_numeric_dec vs) as [Hn|Hn].
  - destruct (mean_rule_numeric key vs Hne Hn) as (q & _ & ->). simpl.
    destruct (all_discrete_dec vs) as [Hd|Hd].
    + destruct (mode_rule_discrete key vs Hne Hd) as (m & _ & ->). done.
    + by rewrite mode_rule_skip.
  - rewrite mean_rule_skip by done. simpl.
    destruct (all_discrete_dec vs) as [Hd|Hd].
    + destruct (mode_rule_discrete key vs Hne Hd) as (m & _ & ->). done.
    + by rewrite mode_rule_skip.
Qed.

(** *** The loop over the log *)

(** Entries of other keys leave a key alone. *)
Lemma aggregate_fold_other log fh key :
  Forall (fun entry => snd entry ≠ []) log → key ∉ fst <$> log →
  ∃ final, fold_left aggregate_step log (Some fh) = Some final ∧
           final !! key = fh !! key.
Proof.
  intros Hne. revert fh. induction Hne as [|[k vs] log Hvs Hlog IH]; intros fh Hkey.
  { by exists fh. }
  rewrite fmap_cons, not_elem_of_cons in Hkey. destruct Hkey as [Hk Hkey].
  simpl in *. destruct (aggregate_entry_total k vs fh Hvs) as [fh1 Hfh1].
  rewrite Hfh1. destruct (IH fh1 Hkey) as (final & -> & Hfinal).
  exists final. split; [done|]. rewrite Hfinal.
  by eapply aggregate_entry_other.
Qed.

(** The value of a key is decided by its own entry. *)
Lemma aggregate_fold_entry log fh key vs :
  wf_log log → lookup_log key log = Some vs →
  ∃ final fh0 fh',
    fold_left aggregate_step log (Some fh) = Some final ∧
    fh0 !! key = fh !! key ∧ vs ≠ [] ∧
    aggregate_entry fh0 (key, vs) = Some fh' ∧
    final !! key = fh' !! key.
Proof.
  intros [Hdup Hne]. revert fh Hdup.
  induction Hne as [|[k vs'] log Hvs Hlog IH]; intros fh Hdup Hlook; [done|].
  rewrite fmap_cons in Hdup. apply NoDup_cons in Hdup as [Hk Hdup].
  simpl in *. destruct (aggregate_entry_total k vs' fh Hvs) as [fh1 Hfh1].
  rewrite Hfh1. destruct (String.eqb k key) eqn:Hkk.
  - apply String.eqb_eq in Hkk as ->. injection Hlook as ->.
    destruct (aggregate_fold_other log fh1 key Hlog Hk) as (final & -> & Hfinal).
    by exists final, fh, fh1.
  - apply String.eqb_neq in Hkk.
    destruct (IH fh1 Hdup Hlook) as (final & fh0 & fh' & -> & H0 & ? & ? & ?).
    exists final, fh0, fh'. repeat split; try done.
    rewrite H0. eapply aggregate_entry_other; [done|]. congruence.
Qed.

Lemma aggregate_of_entry folds key vs :
  lookup_log key (record_folds folds) = Some vs →
  ∃ final fh0 fh',
    aggregate (record_folds folds) = Some final ∧
    fh0 !! key = None ∧ vs ≠ [] ∧
    aggregate_entry fh0 (key, vs) = Some fh' ∧
    final !! key = fh' !! key.
Proof.
  intros Hlook.
  destruct (aggregate_fold_entry _ ∅ key vs (record_folds_wf folds) Hlook)
    as (final & fh0 & fh' & Hfold & H0 & ? & ? & ?).
  exists final, fh0, fh'. by rewrite lookup_empty in H0.
Qed.

(** C1. A parameter whose per-fold values are all integers falls under
    both rules, one after the other: the first rule stores the arithmetic
    mean (a float) under the key, the second rule then stores the mode
    under the same key, whatever was there; the aggregated value of the
    parameter is the mode, an integer, and not the mean. *)
Theorem integer_parameter_mode_overwrites_mean
    (folds : list (list (string * pyval))) (key : string) (vs : list pyval)
    (fh : gmap string pyval) :
  lookup_log key (record_folds folds) = Some vs →
  all_int vs →
  ∃ q m,
    is_mean q (numbers vs) ∧
    mean_rule key vs fh = Some (<[key := PFloat q]> fh) ∧
    is_mode m vs ∧
    mode_rule key vs (<[key := PFloat q]> fh) = Some (<[key := m]> fh) ∧
    m ≠ PFloat q ∧
    ∃ final, aggregate (record_folds folds) = Some final ∧ final !! key = Some m.
Proof.
  intros Hlook Hint.
  destruct (aggregate_of_entry folds key vs Hlook)
    as (final & fh0 & fh' & Hagg & _ & Hne & Hentry & Hfinal).
  destruct (mean_rule_numeric key vs Hne (all_int_numeric _ Hint)) as (q & Hq & Hmean).
  destruct (mode_rule_discrete key vs Hne (all_int_discrete _ Hint)) as (m & Hm & Hmode).
  exists q, m. repeat split; try done.
  - by rewrite Hmode, insert_insert_eq.
  - destruct Hm as (i & Hi & _). intros ->.
    apply list_elem_of_lookup_2 in Hi.
    unfold all_int in Hint. rewrite Forall_forall in Hint. by apply Hint in Hi.
  - exists final. split; [done|]. rewrite Hfinal.
    unfold aggregate_entry in Hentry. simpl in Hentry.
    rewrite Hmean in Hentry. simpl in Hentry. rewrite Hmode in Hentry.
    injection Hentry as <-. by rewrite lookup_insert_eq.
Qed.

(** *** The loop with numpy's arithmetic *)

Lemma to_float_int64 x :
  is_float_or_int x = true → in_int64 x → is_Some (Binary64.to_float x).
Proof.
  destruct x as [z| | | |]; simpl; try done.
  intros _ Hz.
  assert (2 ^ 63 < 2 ^ 1024 - 2 ^ 970) as Hbig by reflexivity.
  assert ((Z.abs z <? 2 ^ 1024 - 2 ^ 970) = true) as ->; [|done].
  apply Z.ltb_lt. revert Hbig. generalize (2 ^ 1024 - 2 ^ 970). lia.
Qed.

(** In the int64 range [np.mean] raises on no list of numbers. *)
Lemma rounded_mean_total vs :
  all_numeric vs → Forall in_int64 vs →
  ∃ q, Binary64.np_mean vs = Some (PFloat q).
Proof.
  intros Hnum Hfit. unfold Binary64.np_mean.
  assert (is_Some (mapM Binary64.to_float vs)) as [nums ->].
  { apply mapM_is_Some. apply Forall_forall. intros x Hx.
    unfold all_numeric in Hnum. rewrite Forall_forall in Hnum, Hfit.
    by apply to_float_int64; [apply Hnum|apply Hfit]. }
  simpl. by eexists.
Qed.

(** What [np.mean] returns is a float. *)
Lemma rounded_mean_float vs m :
  Binary64.np_mean vs = Some m → ∃ q, m = PFloat q.
Proof.
  unfold Binary64.np_mean. destruct (mapM Binary64.to_float vs); [|done].
  simpl. intros [= <-]. by eexists.
Qed.

Lemma rounded_mean_rule_other key vs fh fh' k :
  Rounded.mean_rule key vs fh = Some fh' → k ≠ key → fh' !! k = fh !! k.
Proof.
  unfold Rounded.mean_rule. intros Hr Hk.
  destruct (forallb is_float_or_int vs); [|by simplify_eq].
  destruct (Binary64.np_mean vs); simplify_eq/=. by rewrite lookup_insert_ne.
Qed.

Lemma rounded_entry_other key vs fh fh' k :
  Rounded.aggregate_entry fh (key, vs) = Some fh' → k ≠ key → fh' !! k = fh !! k.
Proof.
  unfold Rounded.aggregate_entry. simpl. intros Hr Hk.
  destruct (Rounded.mean_rule key vs fh) as [fh1|] eqn:Hmean; simplify_eq/=.
  rewrite (mode_rule_other _ _ _ _ _ Hr Hk).
  by apply (rounded_mean_rule_other _ _ _ _ _ Hmean).
Qed.

(** An entry with a value and integers of int64 never raises. *)
Lemma rounded_entry_total key vs fh :
  vs ≠ [] → Forall in_int64 vs → is_Some (Rounded.aggregate_entry fh (key, vs)).
Proof.
  intros Hne Hfit. unfold Rounded.aggregate_entry, Rounded.mean_rule. simpl.
  destruct (all_numeric_dec vs) as [Hn|Hn].
  - rewrite (proj2 (forallb_Forall _ _) Hn).
    destruct (rounded_mean_total vs Hn Hfit) as [q ->]. simpl.
    destruct (all_discrete_dec vs) as [Hd|Hd].
    + destruct (mode_rule_discrete key vs Hne Hd) as (m & _ & ->). done.
    + by rewrite mode_rule_skip.
  - rewrite forallb_not_Forall by done. simpl.
    destruct (all_discrete_dec vs) as [Hd|Hd].
    + destruct (mode_rule_discrete key vs Hne Hd) as (m & _ & ->). done.
    + by rewrite mode_rule_skip.
Qed.

Lemma rounded_step_None log : fold_left rounded_step log None = None.
Proof. by induction log. Qed.

Lemma rounded_fold_total log fh :
  Forall (fun entry => snd entry ≠ []) log → int64_log log →
  is_Some (fold_left rounded_step log (Some fh)).
Proof.
  intros Hne. revert fh. induction Hne as [|[k vs] log Hvs Hlog IH]; intros fh Hfit.
  { by eexists. }
  apply Forall_cons in Hfit as [Hfit1 Hfit]. simpl in *.
  destruct (rounded_entry_total k vs fh Hvs Hfit1) as [fh1 ->]. by apply IH.
Qed.

Lemma rounded_fold_other log fh final key :
  key ∉ fst <$> log → fold_left rounded_step log (Some fh) = Some final →
  final !! key = fh !! key.
Proof.
  revert fh. induction log as [|[k vs] log IH]; intros fh Hkey Hfold.
  { simpl in Hfold. by injection Hfold as <-. }
  rewrite fmap_cons, not_elem_of_cons in Hkey. destruct Hkey as [Hk Hkey].
  simpl in *. destruct (Rounded.aggregate_entry fh (k, vs)) as [fh1|] eqn:Hentry.
  - rewrite (IH fh1 Hkey Hfold). by eapply rounded_entry_other.
  - by rewrite rounded_step_None in Hfold.
Qed.

(** The value of a key is decided by its own entry. *)
Lemma rounded_fold_entry log fh final key vs :
  NoDup (fst <$> log) → lookup_log key log = Some vs →
  fold_left rounded_step log (Some fh) = Some final →
  ∃ fh0 fh',
    fh0 !! key = fh !! key ∧
    Rounded.aggregate_entry fh0 (key, vs) = Some fh' ∧
    final !! key = fh' !! key.
Proof.
  revert fh. induction log as [|[k vs'] log IH]; intros fh Hdup Hlook Hfold; [done|].
  rewrite fmap_cons in Hdup. apply NoDup_cons in Hdup as [Hk Hdup].
  simpl in *. destruct (Rounded.aggregate_entry fh (k, vs')) as [fh1|] eqn:Hentry.
  2:{ by rewrite rounded_step_None in Hfold. }
  destruct (String.eqb k key) eqn:Hkk.
  - apply String.eqb_eq in Hkk as ->. injection Hlook as ->.
    exists fh, fh1. split; [done|]. split; [done|].
    by eapply rounded_fold_other.
  - apply String.eqb_neq in Hkk.
    destruct (IH fh1 Hdup Hlook Hfold) as (fh0 & fh' & H0 & ? & ?).
    exists fh0, fh'. split; [|done].
    rewrite H0. eapply rounded_entry_other; [done|]. congruence.
Qed.

(** The value that the loop leaves for a parameter of the log. *)
Lemma rounded_value_cases folds key vs final :
  lookup_log key (record_folds folds) = Some vs →
  Rounded.aggregate (record_folds folds) = Some final →
  vs ≠ [] ∧
  (all_numeric vs → ¬ all_int vs →
   ∃ q, Binary64.np_mean vs = Some (PFloat q) ∧ final !! key = Some (PFloat q)) ∧
  (all_discrete vs → ∃ m, final !! key = Some m ∧ is_mode m vs) ∧
  (¬ all_numeric vs → ¬ all_discrete vs → final !! key = None).
Proof.
  intros Hlook Hagg.
  destruct (record_folds_wf folds) as [Hdup Hnonempty].
  destruct (rounded_fold_entry _ ∅ final key vs Hdup Hlook Hagg)
    as (fh0 & fh' & H0 & Hentry & Hfinal).
  rewrite lookup_empty in H0.
  assert (vs ≠ []) as Hne.
  { rewrite Forall_forall in Hnonempty.
    assert ((key, vs) ∈ record_folds folds) as Hin; [|by apply (Hnonempty _ Hin)].
    clear -Hlook. induction (record_folds folds) as [|[k vs'] log IH]; [done|].
    simpl in Hlook. destruct (String.eqb k key) eqn:Hk.
    - apply String.eqb_eq in Hk as ->. injection Hlook as ->. left.
    - right. by apply IH. }
  split; [done|]. rewrite Hfinal.
  unfold Rounded.aggregate_entry, Rounded.mean_rule in Hentry. simpl in Hentry.
  split; [|split].
  - intros Hnum Hnint.
    rewrite (proj2 (forallb_Forall _ _) Hnum) in Hentry.
    destruct (Binary64.np_mean vs) as [m|] eqn:Hmean; [|done]. simpl in Hentry.
    destruct (rounded_mean_float vs m Hmean) as [q ->].
    rewrite mode_rule_skip in Hentry
      by (intros Hd; by apply Hnint, numeric_discrete_int).
    injection Hentry as <-. exists q. by rewrite lookup_insert_eq.
  - intros Hd.
    destruct (mode_rule_discrete key vs Hne Hd) as (m & Hm & Hmode).
    destruct (forallb is_float_or_int vs);
      [destruct (Binary64.np_mean vs); [|done]|];
      simpl in Hentry; rewrite Hmode in Hentry; injection Hentry as <-;
      exists m; by rewrite lookup_insert_eq.
  - intros Hnum Hd. rewrite forallb_not_Forall in Hentry by done. simpl in Hentry.
    rewrite mode_rule_skip in Hentry by done. by injection Hentry as <-.
Qed.

Lemma rounded_aggregate_total folds :
  int64_log (record_folds folds) → is_Some (Rounded.aggregate (record_folds folds)).
Proof.
  intros Hfit. apply rounded_fold_total; [|done]. apply record_folds_wf.
Qed.

(** C2, as amended. For every parameter of the log: when its per-fold
    values are all numbers and not all of them integers, the aggregated
    value is the float that [np.mean] returns for them, their sum in
    binary64 (added in numpy's order) divided by their number, which is
    their arithmetic mean up to rounding only; when they are all integers
    or strings, it is their most frequent value, the earliest one among
    equally frequent values. The aggregation returns when the integers of
    the log fit int64. *)
Theorem aggregate_policy
    (folds : list (list (string * pyval))) (key : string) (vs : list pyval) :
  lookup_log key (record_folds folds) = Some vs →
  (int64_log (record_folds folds) →
   is_Some (Rounded.aggregate (record_folds folds))) ∧
  ∀ final, Rounded.aggregate (record_folds folds) = Some final →
    (all_numeric vs → ¬ all_int vs →
     ∃ q, Binary64.np_mean vs = Some (PFloat q) ∧ final !! key = Some (PFloat q)) ∧
    (all_discrete vs → ∃ m, final !! key = Some m ∧ is_mode m vs).
Proof.
  intros Hlook. split; [apply rounded_aggregate_total|].
  intros final Hagg.
  destruct (rounded_value_cases folds key vs final Hlook Hagg) as (_ & Hmean & Hmode & _).
  by split.
Qed.

(** C9. A parameter whose per-fold values are neither all numbers nor all
    integers or strings raises nothing and gets no entry in the final
    configuration. *)
Theorem unclassified_parameter_omitted
    (folds : list (list (string * pyval))) (key : string) (vs : list pyval) :
  lookup_log key (record_folds folds) = Some vs →
  ¬ all_numeric vs → ¬ all_discrete vs →
  ∃ final, aggregate (record_folds folds) = Some final ∧ final !! key = None.
Proof.
  intros Hlook Hnum Hd.
  destruct (aggregate_of_entry folds key vs Hlook)
    as (final & fh0 & fh' & Hagg & H0 & Hne & Hentry & Hfinal).
  exists final. split; [done|]. rewrite Hfinal.
  unfold aggregate_entry in Hentry. simpl in Hentry.
  rewrite mean_rule_skip in Hentry by done. simpl in Hentry.
  rewrite mode_rule_skip in Hentry by done. by injection Hentry as <-.
Qed.

(** *** The policy on concrete logs *)

Lemma integer_parameter_mode_overwrites_mean_witness :
  lookup_log "degree" (record_folds degree_folds) = Some [PInt 1; PInt 1; PInt 4] ∧
  all_int [PInt 1; PInt 1; PInt 4] ∧
  ∃ q m,
    is_mean q (numbers [PInt 1; PInt 1; PInt 4]) ∧
    mean_rule "degree" [PInt 1; PInt 1; PInt 4] ∅ = Some (<["degree" := PFloat q]> ∅) ∧
    is_mode m [PInt 1; PInt 1; PInt 4] ∧
    mode_rule "degree" [PInt 1; PInt 1; PInt 4] (<["degree" := PFloat q]> ∅)
      = Some (<["degree" := m]> ∅) ∧
    m ≠ PFloat q ∧
    ∃ final, aggregate (record_folds degree_folds) = Some final ∧
             final !! "degree" = Some m.
Proof.
  split; [reflexivity|]. split; [by repeat constructor|].
  apply (integer_parameter_mode_overwrites_mean degree_folds "degree"
           [PInt 1; PInt 1; PInt 4] ∅); [reflexivity|by repeat constructor].
Defined.

(** C2, as stated, fails twice. The degrees 1, 1 and 4 are all numbers,
    their mean is 2, and the aggregated value is 1, their mode. The values
    0.1, 0.3 and 0.2 are averaged, but their sum in binary64 is
    0.6000000000000001 and the aggregated value is 0.20000000000000004,
    which is not 0.2, nor the float that the literal 0.2 denotes. *)
Lemma aggregate_policy_fails_as_stated :
  (lookup_log "degree" (record_folds degree_folds) = Some [PInt 1; PInt 1; PInt 4] ∧
   all_numeric [PInt 1; PInt 1; PInt 4] ∧
   is_mean 2 (numbers [PInt 1; PInt 1; PInt 4]) ∧
   ∃ final, Rounded.aggregate (record_folds degree_folds) = Some final ∧
            final !! "degree" = Some (PInt 1) ∧
            ¬ is_mean (inject_Z 1) (numbers [PInt 1; PInt 1; PInt 4])) ∧
  (lookup_log "C" (record_folds C_folds) = Some [PFloat 0.1; PFloat 0.3; PFloat 0.2] ∧
   all_numeric [PFloat 0.1; PFloat 0.3; PFloat 0.2] ∧
   ∃ final q, Rounded.aggregate (record_folds C_folds) = Some final ∧
              final !! "C" = Some (PFloat q) ∧
              q = Binary64.literal 0.20000000000000004 ∧
              ¬ (q == 0.2)%Q ∧ ¬ (q == Binary64.literal 0.2)%Q).
Proof.
  split.
  - split; [reflexivity|]. split; [by repeat constructor|]. split; [reflexivity|].
    eexists. split; [by vm_compute|]. split; [by vm_compute|].
    by intros Hmean; vm_compute in Hmean.
  - split; [reflexivity|]. split; [by repeat constructor|].
    eexists _, _. split; [by vm_compute|]. split; [by vm_compute|].
    split; [by vm_compute|]. split; by vm_compute.
Qed.

(** The two logs of the specification: the binary64 mean of 0.1, 0.3 and
    0.2 is 0.20000000000000004, and the mode of rbf, rbf, linear is rbf. *)
Lemma aggregate_policy_witness :
  (∃ final, Rounded.aggregate (record_folds C_folds) = Some final ∧
            final !! "C" = Some (PFloat (Binary64.literal 0.20000000000000004))) ∧
  (∃ final, Rounded.aggregate (record_folds kernel_folds) = Some final ∧
            final !! "kernel" = Some (PStr "rbf")).
Proof.
  split.
  - destruct (aggregate_policy C_folds "C" [PFloat 0.1; PFloat 0.3; PFloat 0.2] eq_refl)
      as [Hsome Hpolicy].
    destruct Hsome as [final Hagg].
    { by repeat constructor. }
    destruct (Hpolicy final Hagg) as [Hmean _].
    destruct Hmean as (q & Hq & Hfinal).
    { by repeat constructor. }
    { intros Hint. by apply Forall_cons in Hint as [? _]. }
    exists final. split; [done|]. rewrite Hfinal.
    vm_compute in Hq. injection Hq as <-. by vm_compute.
  - destruct (aggregate_policy kernel_folds "kernel"
                [PStr "rbf"; PStr "rbf"; PStr "linear"] eq_refl)
      as [Hsome Hpolicy].
    destruct Hsome as [final Hagg].
    { by repeat constructor. }
    destruct (Hpolicy final Hagg) as [_ Hmode].
    destruct Hmode as (m & Hm & i & Hi & _ & Hbefore).
    { by repeat constructor. }
    exists final. split; [done|]. rewrite Hm. f_equal.
    destruct i as [|[|[|i]]]; simpl in Hi.
    + by injection Hi.
    + by injection Hi.
    + injection Hi as <-.
      assert (2 < 1)%nat as Hlt by (apply (Hbefore O (PStr "rbf")); [lia|done]).
      lia.
    + by destruct i.
Defined.

Lemma unclassified_parameter_omitted_witness :
  lookup_log "max_features" (record_folds mixed_folds)
    = Some [PFloat 0.5; PStr "sqrt"] ∧
  ¬ all_numeric [PFloat 0.5; PStr "sqrt"] ∧
  ¬ all_discrete [PFloat 0.5; PStr "sqrt"] ∧
  ∃ final, aggregate (record_folds mixed_folds) = Some final ∧
           final !! "max_features" = None.
Proof.
  assert (¬ all_numeric [PFloat 0.5; PStr "sqrt"]) as Hnum.
  { intros Hall. apply Forall_cons in Hall as [_ Hall].
    by apply Forall_cons in Hall as [? _]. }
  assert (¬ all_discrete [PFloat 0.5; PStr "sqrt"]) as Hd.
  { intros Hall. by apply Forall_cons in Hall as [? _]. }
  split; [reflexivity|]. split; [done|]. split; [done|].
  by apply (unclassified_parameter_omitted mixed_folds "max_features"
              [PFloat 0.5; PStr "sqrt"]).
Defined.

End AggregatorFacts.

(** ** Properties of the generators *)

Module RangeFacts.
Import Processing Example.

Lemma Qlt_bool_true x y : Qlt_bool x y = true ↔ (x < y)%Q.
Proof.
  unfold Qlt_bool. rewrite negb_true_iff. split.
  - intros Hle. apply Qnot_le_lt. intros Hyx.
    apply Qle_bool_iff in Hyx. congruence.
  - intros Hlt. destruct (Qle_bool y x) eqn:Hle; [|done].
    apply Qle_bool_iff in Hle. by apply Qlt_not_le in Hlt.
Qed.

Lemma Qlt_bool_false x y : Qlt_bool x y = false ↔ (y <= x)%Q.
Proof.
  unfold Qlt_bool. rewrite negb_false_iff. apply Qle_bool_iff.
Qed.

Lemma nth_value_0 start step : (nth_value start step 0 == start)%Q.
Proof. unfold nth_value. change (inject_Z (Z.of_nat 0)) with 0%Q. ring. Qed.

Lemma nth_value_S start step k :
  (nth_value start step (S k) == nth_value (start + step) step k)%Q.
Proof.
  unfold nth_value. rewrite Nat2Z.inj_succ. unfold Z.succ.
  rewrite inject_Z_plus. ring.
Qed.

Lemma nth_value_ge start step k : (0 < step)%Q → (start <= nth_value start step k)%Q.
Proof.
  intros Hstep. unfold nth_value.
  assert (0 <= inject_Z (Z.of_nat k) * step)%Q; [|lra].
  apply Qmult_le_0_compat; [|lra].
  change 0%Q with (inject_Z 0). rewrite <-Zle_Qle. lia.
Qed.

(** Some value of the progression reaches [stop]. *)
Lemma nth_value_reaches start stop step :
  (0 < step)%Q → ∃ N, (stop <= nth_value start step N)%Q.
Proof.
  intros Hstep. set (d := ((stop - start) / step)%Q).
  exists (Z.to_nat (Qceiling d)). unfold nth_value.
  assert (d <= inject_Z (Z.of_nat (Z.to_nat (Qceiling d))))%Q as Hd.
  { eapply Qle_trans; [apply Qle_ceiling|]. rewrite <-Zle_Qle. lia. }
  assert (d * step == stop - start)%Q as Heq by (unfold d; field; lra).
  apply (Qmult_le_compat_r _ _ step) in Hd; [|lra]. lra.
Qed.

(** A run of [frange] that needs at most [N] steps. *)
Lemma frange_run start stop step N :
  (0 < step)%Q → (stop <= nth_value start step N)%Q →
  ∃ n l,
    (∀ fuel, (n < fuel)%nat → frange fuel start stop step = Some l) ∧
    length l = n ∧
    (∀ i x, l !! i = Some x → (x == nth_value start step i)%Q) ∧
    (∀ k, (k < n)%nat ↔ (nth_value start step k < stop)%Q).
Proof.
  intros Hstep. revert start.
  induction N as [|N IH]; intros start Hreach;
    destruct (Qlt_bool start stop) eqn:Hlt.
  - apply Qlt_bool_true in Hlt. rewrite nth_value_0 in Hreach. lra.
  - apply Qlt_bool_false in Hlt. exists O, []. repeat split; try done.
    + intros [|fuel] Hfuel; [lia|]. unfold frange, frange_next. simpl.
      apply Qlt_bool_false in Hlt. by rewrite Hlt.
    + lia.
    + intros Hk. pose proof (nth_value_ge start step k Hstep). lra.
  - apply Qlt_bool_true in Hlt. rewrite nth_value_S in Hreach.
    destruct (IH _ Hreach) as (n & l & Hrun & Hlen & Hval & Hcount).
    exists (S n), (start :: l). repeat split.
    + intros [|fuel] Hfuel; [lia|]. unfold frange, frange_next. simpl.
      apply Qlt_bool_true in Hlt. rewrite Hlt.
      unfold frange, frange_next in Hrun. by rewrite Hrun by lia.
    + simpl. by rewrite Hlen.
    + intros [|i] x Hx; simpl in Hx.
      * injection Hx as <-. by rewrite nth_value_0.
      * rewrite nth_value_S. by apply Hval.
    + intros Hk. destruct k as [|k].
      * by rewrite nth_value_0.
      * rewrite nth_value_S. apply Hcount. lia.
    + intros Hk. destruct k as [|k]; [lia|].
      rewrite nth_value_S in Hk. apply Hcount in Hk. lia.
  - apply Qlt_bool_false in Hlt. exists O, []. repeat split; try done.
    + intros [|fuel] Hfuel; [lia|]. unfold frange, frange_next. simpl.
      apply Qlt_bool_false in Hlt. by rewrite Hlt.
    + lia.
    + intros Hk. pose proof (nth_value_ge start step k Hstep). lra.
Qed.

(** C6, as amended. In exact arithmetic [frange(start, stop, step)] with a
    positive step yields the values [start + k * step], [k = 0, 1, 2, ...],
    that are strictly below [stop], and no others; [stop] itself is never
    yielded. The program adds in binary64, where the repeated sums fall
    short of the decimal values: [frange(0, 1.0, 0.1)] yields eleven
    numbers, the last one 0.9999999999999999, all of them below 1.0. They
    are the candidates for [C] in the grid of the svm family, after the
    integer 0 that is yielded first; 1.0 is not among them. *)
Theorem frange_half_open (start stop step : Q) :
  (0 < step)%Q →
  (∃ n l,
     (∀ fuel, (n < fuel)%nat → frange fuel start stop step = Some l) ∧
     length l = n ∧
     (∀ i x, l !! i = Some x → (x == nth_value start step i)%Q) ∧
     (∀ k, (k < n)%nat ↔ (nth_value start step k < stop)%Q) ∧
     Forall (fun x => (x < stop)%Q) l) ∧
  (∃ l, Binary64.frange Training.fuel (Binary64.of_Z 0) (Binary64.of_Q 1.0)
          (Binary64.of_Q 0.1) = Some l ∧
        l = Binary64.of_Q <$> unit_grid ∧
        Forall (fun x => PrimFloat.ltb x (Binary64.of_Q 1.0) = true) l) ∧
  (∃ grid C, Training.svm_grid = Some grid ∧ grid !! O = Some ("C", C) ∧
             C = PInt 0 :: (PFloat <$> (Binary64.literal <$> tail unit_grid)) ∧
             length C = 11%nat ∧
             ¬ Exists (fun v => py_eqb v (PFloat 1.0) = true) C).
Proof.
  intros Hstep. split; [|split].
  - destruct (nth_value_reaches start stop step Hstep) as [N HN].
    destruct (frange_run start stop step N Hstep HN)
      as (n & l & Hrun & Hlen & Hval & Hcount).
    exists n, l. repeat split; try done; try apply Hcount.
    apply Forall_lookup. intros i x Hx. rewrite (Hval i x Hx).
    apply Hcount. rewrite <-Hlen. by eapply lookup_lt_Some.
  - eexists. split; [by vm_compute|]. split; [by vm_compute|].
    repeat constructor; by vm_compute.
  - eexists _, _. split; [by vm_compute|]. split; [done|].
    split; [by vm_compute|]. split; [done|].
    intros Hex. repeat (apply Exists_cons in Hex as [Hex|Hex]; [by vm_compute in Hex|]).
    by apply Exists_nil in Hex.
Qed.

Lemma frange_half_open_witness :
  (0 < 0.1)%Q ∧
  ∃ n l,
    (∀ fuel, (n < fuel)%nat → frange fuel 0 1.0 0.1 = Some l) ∧
    length l = n ∧
    (∀ i x, l !! i = Some x → (x == nth_value 0 0.1 i)%Q) ∧
    (∀ k, (k < n)%nat ↔ (nth_value 0 0.1 k < 1.0)%Q) ∧
    Forall (fun x => (x < 1.0)%Q) l.
Proof.
  split; [reflexivity|].
  apply (frange_half_open 0 1.0 0.1). reflexivity.
Defined.

(** C6, as stated, fails: the candidates that [frange(0, 1.0, 0.1)] yields
    in the program's arithmetic do not include 1.0, and the candidates for
    [C] in the grid of the svm family do not either; nor is 1.0 yielded in
    exact arithmetic. *)
Lemma frange_grid_excludes_stop :
  (∃ l, Binary64.frange Training.fuel (Binary64.of_Z 0) (Binary64.of_Q 1.0)
          (Binary64.of_Q 0.1) = Some l ∧
        length l = 11%nat ∧
        ¬ Exists (fun x => PrimFloat.eqb x (Binary64.of_Q 1.0) = true) l) ∧
  (∃ C, grid_candidates "svm" "C" = Some C ∧
        ¬ Exists (fun v => py_eqb v (PFloat 1.0) = true) C) ∧
  (∃ l, frange Training.fuel 0 1.0 0.1 = Some l ∧
        ¬ Exists (fun x => (x == 1.0)%Q) l).
Proof.
  split; [|split].
  - eexists. split; [by vm_compute|]. split; [done|].
    intros Hex. repeat (apply Exists_cons in Hex as [Hex|Hex]; [by vm_compute in Hex|]).
    by apply Exists_nil in Hex.
  - eexists. split; [by vm_compute|].
    intros Hex. repeat (apply Exists_cons in Hex as [Hex|Hex]; [by vm_compute in Hex|]).
    by apply Exists_nil in Hex.
  - eexists. split; [by vm_compute|].
    intros Hex. repeat (apply Exists_cons in Hex as [Hex|Hex]; [by vm_compute in Hex|]).
    by apply Exists_nil in Hex.
Qed.

End RangeFacts.

(** ** Properties of the confusion statistics *)

Module AnalysisFacts.
Import Analysis.

Lemma np_divide_finite a b :
  b ≠ 0 → np_divide a b = Finite (inject_Z a / inject_Z b)%Q.
Proof. intros Hb. unfold np_divide. by rewrite (proj2 (Z.eqb_neq b 0) Hb). Qed.

(** C5. [Analysis.confusion] reads TP, TN, FP and FN from the cells
    [0,0], [1,1], [0,1] and [1,0] and, the denominators not being zero,
    computes accuracy = (TP+TN)/(TP+TN+FP+FN), error = (FP+FN)/(TP+TN+FP+FN),
    precision = TP/(TP+FP), recall = true positive rate = TP/(TP+FN),
    false positive rate = FP/(FP+TN) and specificity = TN/(TN+FP). *)
Theorem confusion_formulas (cm : list (list Z)) (TP TN FP FN : Z) :
  cell cm 0 0 = Some TP → cell cm 1 1 = Some TN →
  cell cm 0 1 = Some FP → cell cm 1 0 = Some FN →
  TP + TN + FP + FN ≠ 0 → TP + FP ≠ 0 → TP + FN ≠ 0 → FP + TN ≠ 0 →
  ∃ stats,
    confusion cm = Some stats ∧
    model_accuracy stats = Finite (inject_Z (TP + TN) / inject_Z (TP + TN + FP + FN))%Q ∧
    model_error stats = Finite (inject_Z (FP + FN) / inject_Z (TP + TN + FP + FN))%Q ∧
    precision stats = Finite (inject_Z TP / inject_Z (TP + FP))%Q ∧
    recall stats = Finite (inject_Z TP / inject_Z (TP + FN))%Q ∧
    true_positive_rate stats = recall stats ∧
    false_positive_rate stats = Finite (inject_Z FP / inject_Z (FP + TN))%Q ∧
    specificity stats = Finite (inject_Z TN / inject_Z (TN + FP))%Q.
Proof.
  intros HTP HTN HFP HFN Hall Hp Hr Hf.
  unfold confusion. rewrite HTP, HTN, HFP, HFN. simpl.
  eexists. split; [done|]. simpl.
  rewrite !np_divide_finite by lia. by repeat split.
Qed.

(** The matrix with TP = 50, TN = 30, FP = 10 and FN = 10: accuracy 0.8,
    precision and recall 50/60, specificity 0.75. *)
Lemma confusion_formulas_witness :
  ∃ stats acc prec rec spec,
    confusion [[50; 10]; [10; 30]] = Some stats ∧
    model_accuracy stats = Finite acc ∧ (acc == 0.8)%Q ∧
    precision stats = Finite prec ∧ (prec == 50 / 60)%Q ∧
    recall stats = Finite rec ∧ (rec == 50 / 60)%Q ∧
    specificity stats = Finite spec ∧ (spec == 0.75)%Q.
Proof.
  destruct (confusion_formulas [[50; 10]; [10; 30]] 50 30 10 10)
    as (stats & Hstats & Hacc & _ & Hprec & Hrec & _ & _ & Hspec);
    try reflexivity; try discriminate.
  exists stats. do 4 eexists. split; [exact Hstats|].
  split; [exact Hacc|]. split; [reflexivity|].
  split; [exact Hprec|]. split; [reflexivity|].
  split; [exact Hrec|]. split; [reflexivity|].
  split; [exact Hspec|]. reflexivity.
Defined.

End AnalysisFacts.

(** ** Properties of the data provider *)

Module ProcessingFacts.
Import Processing Example.

Lemma value_counts_lookup y c :
  value_counts y !! c =
  if decide (count_label c y = O) then None else Some (count_label c y).
Proof.
  induction y as [|v y IH]; [done|].
  unfold value_counts in *. cbn [foldr]. unfold count_label in *. cbn [List.filter].
  destruct (v =? c) eqn:Hv.
  - apply Z.eqb_eq in Hv as ->. rewrite lookup_insert_eq, IH.
    simpl. by case_decide as Hc; [rewrite Hc|].
  - apply Z.eqb_neq in Hv. by rewrite lookup_insert_ne.
Qed.

Lemma count_label_pos c y : c ∈ y → count_label c y ≠ O.
Proof.
  unfold count_label. induction y as [|v y IH]; [by intros ?%elem_of_nil|].
  intros Hc. simpl. destruct (v =? c) eqn:Hv; [done|].
  apply Z.eqb_neq in Hv. apply elem_of_cons in Hc as [->|Hc]; [done|]. by apply IH.
Qed.

(** C7. When both labels 0 and 1 occur, the class weighting that
    [extract_data] returns is the pair of 1 and the number of observations
    of class 0 divided by the number of observations of class 1. *)
Theorem class_weighting_ratio (df : list observation) :
  0 ∈ State <$> df → 1 ∈ State <$> df →
  ∃ w1,
    extract_data df
      = Some (Features <$> df, State <$> df, Filename <$> df, [PInt 1; PFloat w1]) ∧
    w1 = (inject_Z (Z.of_nat (count_label 0 (State <$> df)))
          / inject_Z (Z.of_nat (count_label 1 (State <$> df))))%Q.
Proof.
  intros H0 H1. unfold extract_data. rewrite !value_counts_lookup.
  rewrite !decide_False by by apply count_label_pos.
  simpl. by eexists.
Qed.

Lemma class_weighting_ratio_witness :
  ∃ w1,
    extract_data five_sessions
      = Some (Features <$> five_sessions, State <$> five_sessions,
              Filename <$> five_sessions, [PInt 1; PFloat w1]) ∧
    w1 = (3 / 2)%Q.
Proof.
  destruct (class_weighting_ratio five_sessions) as (w1 & Hdata & Hw1).
  - apply list_elem_of_In. simpl. auto.
  - apply list_elem_of_In. simpl. auto.
  - exists w1. split; [exact Hdata|]. rewrite Hw1. reflexivity.
Defined.

End ProcessingFacts.

(** ** Properties of the pipeline *)

Module PipelineFacts.
Import Training.

(** *** Reasoning in the trace monad *)

Lemma bind_Some {A B} (m : M A) (f : A → M B) tr b tr' :
  (m ≫= f) tr = (Some b, tr') ↔
  ∃ a tr1, m tr = (Some a, tr1) ∧ f a tr1 = (Some b, tr').
Proof.
  unfold mbind, M_bind. destruct (m tr) as [[a|] tr1]; split.
  - intros Hf. by exists a, tr1.
  - by intros (a' & tr1' & [= -> ->] & Hf).
  - done.
  - by intros (a' & tr1' & [=] & _).
Qed.

Lemma lift_Some {A} (o : option A) tr a tr' :
  lift o tr = (Some a, tr') ↔ o = Some a ∧ tr' = tr.
Proof. unfold lift. split; [by intros [= -> ->]|by intros [-> ->]]. Qed.

Lemma log_Some e tr u tr' : log e tr = (Some u, tr') ↔ tr' = tr ++ [e].
Proof. unfold log. destruct u. split; [by intros [= <-]|by intros ->]. Qed.

Lemma ret_Some {A} (x : A) tr a tr' :
  mret (M := M) x tr = (Some a, tr') ↔ a = x ∧ tr' = tr.
Proof. unfold mret, M_ret. split; [by intros [= -> ->]|by intros [-> ->]]. Qed.

(** *** The final evaluation *)

Lemma misclassified_iff sessions y_test y_pred s :
  s ∈ misclassified sessions y_test y_pred ↔
  ∃ i t p, sessions !! i = Some s ∧ y_test !! i = Some t ∧
           y_pred !! i = Some p ∧ t ≠ p.
Proof.
  revert y_test y_pred.
  induction sessions as [|s' sessions IH]; intros [|t y_test] [|p y_pred]; simpl;
    try (split; [by intros ?%elem_of_nil|by intros ([|?] & ? & ? & ? & ? & ? & ?)]).
  destruct (t =? p) eqn:Htp.
  - apply Z.eqb_eq in Htp as ->. rewrite IH. split.
    + intros (i & t & q & ?). by exists (S i), t, q.
    + intros ([|i] & t & q & Hs & Ht & Hp & Hne); simpl in *.
      * congruence.
      * by exists i, t, q.
  - apply Z.eqb_neq in Htp. rewrite elem_of_cons, IH. split.
    + intros [->|(i & t' & q & ?)]; [by exists O, t, p|by exists (S i), t', q].
    + intros ([|i] & t' & q & Hs & Ht & Hp & Hne); simpl in *.
      * left. congruence.
      * right. by exists i, t', q.
Qed.

Lemma mask_select_misclassified sessions y_test y_pred :
  length sessions = length y_test → length y_pred = length y_test →
  mask_select sessions (zip_with (fun t p => negb (t =? p)) y_test y_pred)
  = Some (misclassified sessions y_test y_pred).
Proof.
  intros Hs Hp. unfold mask_select.
  rewrite decide_True by (rewrite length_zip_with; lia). f_equal.
  revert y_test y_pred Hs Hp.
  induction sessions as [|s sessions IH]; intros [|t y_test] [|p y_pred] Hs Hp;
    simpl in *; try done.
  destruct (t =? p); simpl; rewrite IH by lia; done.
Qed.

Lemma count_correct_le y_true y_pred :
  (Metrics.count_correct y_true y_pred <= length y_true)%nat.
Proof.
  unfold Metrics.count_correct.
  etrans; [apply List.filter_length_le|]. rewrite length_zip. lia.
Qed.

(** The accuracy of vectors of one positive length is a fraction. *)
Lemma accuracy_score_bounds y_true y_pred :
  length y_pred = length y_true → y_true ≠ [] →
  ∃ acc, Metrics.accuracy_score y_true y_pred = Some acc ∧ (0 <= acc <= 1)%Q.
Proof.
  intros Hlen Hne. unfold Metrics.accuracy_score, Metrics.check_consistent_length.
  destruct (decide (length y_true = length y_pred)) as [_|]; [|lia]. simpl.
  destruct (decide (length y_true = O)) as [Hz|_]; [by destruct y_true|].
  eexists. split; [done|].
  pose proof (count_correct_le y_true y_pred) as Hle.
  assert (0 < inject_Z (Z.of_nat (length y_true)))%Q as Hpos.
  { change 0%Q with (inject_Z 0). rewrite <-Zlt_Qlt. destruct y_true; [done|simpl; lia]. }
  assert (0 <= inject_Z (Z.of_nat (Metrics.count_correct y_true y_pred)))%Q as Hc0.
  { change 0%Q with (inject_Z 0). rewrite <-Zle_Qle. lia. }
  assert (inject_Z (Z.of_nat (Metrics.count_correct y_true y_pred))
          <= inject_Z (Z.of_nat (length y_true)))%Q as Hc1.
  { rewrite <-Zle_Qle. lia. }
  split.
  - apply Qle_shift_div_l; [done|]. lra.
  - apply Qle_shift_div_r; [done|]. lra.
Qed.

(** With two different labels among the true and predicted ones the
    confusion matrix has the four cells [Analysis.confusion] reads. *)
Lemma confusion_two_labels y_true y_pred a b :
  length y_pred = length y_true →
  a ≠ b → a ∈ y_true ++ y_pred → b ∈ y_true ++ y_pred →
  ∃ cm stats, Metrics.confusion_matrix y_true y_pred = Some cm ∧
              Analysis.confusion cm = Some stats.
Proof.
  intros Hlen Hab Ha Hb.
  unfold Metrics.confusion_matrix, Metrics.check_consistent_length.
  destruct (decide (length y_true = length y_pred)) as [_|]; [|lia]. simpl.
  set (labels := merge_sort Z.le (remove_dups (y_true ++ y_pred))).
  assert (a ∈ labels) as Ha'.
  { unfold labels. by rewrite merge_sort_Permutation, elem_of_remove_dups. }
  assert (b ∈ labels) as Hb'.
  { unfold labels. by rewrite merge_sort_Permutation, elem_of_remove_dups. }
  destruct labels as [|l0 [|l1 labels]].
  - by apply elem_of_nil in Ha'.
  - apply list_elem_of_singleton in Ha', Hb'. congruence.
  - eexists _, _. split; [done|]. reflexivity.
Qed.

(** C8. When the model fits, predicts one label per test row, two
    different labels occur among the true and predicted ones and the ROC
    report succeeds, [run_model] exports exactly the session identifiers at
    the positions where the prediction differs from the true label, and
    returns [accuracy_score(y_test, y_pred)], a number between 0 and 1. *)
Theorem run_model_exports_misclassified `{Sklearn}
    (model : estimator) (X_train : matrix) (y_train : list Z)
    (X_test : matrix) (y_test : list Z) (sessions_test : list string)
    (fitted_model : fitted) (a b : Z) (tr : list event) :
  fit model X_train y_train = Some fitted_model →
  length (predict fitted_model X_test) = length y_test →
  length sessions_test = length y_test →
  a ≠ b →
  a ∈ y_test ++ predict fitted_model X_test →
  b ∈ y_test ++ predict fitted_model X_test →
  Analysis.roc y_test (predict fitted_model X_test) = Some tt →
  let y_pred := predict fitted_model X_test in
  ∃ acc missed,
    run_model model X_train y_train X_test y_test sessions_test tr
      = (Some acc,
         tr ++ [call_run_model model X_train y_train X_test y_test sessions_test;
                to_csv "misclassified_sessions.csv" missed]) ∧
    missed = misclassified sessions_test y_test y_pred ∧
    (∀ s, s ∈ missed ↔
          ∃ i t p, sessions_test !! i = Some s ∧ y_test !! i = Some t ∧
                   y_pred !! i = Some p ∧ t ≠ p) ∧
    Metrics.accuracy_score y_test y_pred = Some acc ∧
    (0 <= acc <= 1)%Q.
Proof.
  intros Hfit Hpred Hsess Hab Ha Hb Hroc y_pred. subst y_pred.
  set (y_pred := predict fitted_model X_test) in *.
  destruct (confusion_two_labels y_test y_pred a b Hpred Hab Ha Hb)
    as (cm & stats & Hcm & Hstats).
  assert (y_test ≠ []) as Hne.
  { intros ->. apply nil_length_inv in Hpred. rewrite Hpred in Ha.
    by apply elem_of_nil in Ha. }
  destruct (accuracy_score_bounds y_test y_pred Hpred Hne) as (acc & Hacc & Hbounds).
  exists acc, (misclassified sessions_test y_test y_pred).
  split; [|split; [done|split; [apply misclassified_iff|done]]].
  unfold run_model, mbind, M_bind, log, lift. rewrite Hfit. fold y_pred.
  unfold Metrics.check_consistent_length.
  rewrite decide_True by done. rewrite Hcm, Hstats, Hroc.
  rewrite mask_select_misclassified by done.
  rewrite Hacc. by rewrite <-app_assoc.
Qed.

Lemma run_model_exports_misclassified_witness :
  ∃ acc,
    run_model (H := Example.toy) (SVC ∅) Example.X_one [1]
      Example.X_three [1; 1; 0] ["a.csv"; "b.csv"; "c.csv"] []
    = (Some acc,
       [call_run_model (SVC ∅) Example.X_one [1] Example.X_three [1; 1; 0]
          ["a.csv"; "b.csv"; "c.csv"];
        to_csv "misclassified_sessions.csv" ["b.csv"; "c.csv"]]) ∧
    (acc == 1 / 3)%Q.
Proof.
  destruct (run_model_exports_misclassified (H := Example.toy) (SVC ∅)
              Example.X_one [1] Example.X_three [1; 1; 0]
              ["a.csv"; "b.csv"; "c.csv"] tt 0 1 [])
    as (acc & missed & Hrun & Hmissed & _ & Hacc & _);
    try reflexivity; try discriminate.
  - apply list_elem_of_In. simpl. auto.
  - apply list_elem_of_In. simpl. auto.
  - exists acc. rewrite Hrun, Hmissed. split; [reflexivity|].
    injection Hacc as <-. reflexivity.
Defined.

(** *** The outer loop *)

Lemma select_subseteq {A} (a : list A) ix l : select a ix = Some l → l ⊆ a.
Proof.
  unfold select. intros Hsel%mapM_Some_1 x Hx.
  apply list_elem_of_lookup in Hx as [j Hj].
  destruct (Forall2_lookup_r _ _ _ _ _ Hsel Hj) as (i & _ & Hi).
  by eapply list_elem_of_lookup_2.
Qed.

Lemma length_chunks sizes indices : length (Metrics.chunks sizes indices) = length sizes.
Proof.
  revert indices. induction sizes as [|s sizes IH]; intros indices; simpl; [done|].
  by rewrite IH.
Qed.

(** [KFold(n_splits)] yields [n_splits] folds of row numbers of the table. *)
Lemma KFold_split_folds `{Sklearn} n_splits random_state n folds :
  Metrics.KFold_split n_splits random_state n = Some folds →
  length folds = n_splits ∧
  Forall (fun fold => Forall (fun i => (i < n)%nat) (fst fold) ∧
                      Forall (fun i => (i < n)%nat) (snd fold)) folds.
Proof.
  unfold Metrics.KFold_split. destruct (n <? n_splits)%nat; [done|].
  intros [= <-]. split.
  - rewrite length_fmap, length_chunks. unfold Metrics.fold_sizes.
    by rewrite length_fmap, length_seq.
  - apply Forall_fmap, Forall_forall. intros test _. simpl.
    split; apply Forall_forall; intros i [_ Hi%elem_of_seq]%list_elem_of_filter; lia.
Qed.

Lemma hyperparameters_Some `{Sklearn} model X_train y_train tr params tr' :
  hyperparameters model X_train y_train tr = (Some params, tr') →
  tr' = tr ++ [call_hyperparameters model X_train y_train] ∧
  ∃ gs, grid_search_for model = Some gs ∧
        GridSearchCV_fit gs X_train y_train = Some params.
Proof.
  unfold hyperparameters. intros Hrun.
  apply bind_Some in Hrun as (u & tr1 & ->%log_Some & Hrun).
  apply bind_Some in Hrun as (gs & tr2 & [Hgs ->]%lift_Some & Hrun).
  apply lift_Some in Hrun as [Hfit ->]. split; [done|]. by exists gs.
Qed.

Lemma outer_fold_Some `{Sklearn} model X_train y_train fold bh tr bh' tr' :
  outer_fold model X_train y_train fold bh tr = (Some bh', tr') →
  ∃ Xs ys params,
    select X_train (fst fold) = Some Xs ∧
    select y_train (fst fold) = Some ys ∧
    tr' = tr ++ [call_hyperparameters model Xs ys] ∧
    bh' = record_params params bh.
Proof.
  unfold outer_fold. intros Hrun.
  apply bind_Some in Hrun as (Xs & tr1 & [HXs ->]%lift_Some & Hrun).
  apply bind_Some in Hrun as (Xt & tr2 & [HXt ->]%lift_Some & Hrun).
  apply bind_Some in Hrun as (ys & tr3 & [Hys ->]%lift_Some & Hrun).
  apply bind_Some in Hrun as (yt & tr4 & [Hyt ->]%lift_Some & Hrun).
  apply bind_Some in Hrun as (params & tr5 & [-> _]%hyperparameters_Some & Hrun).
  apply ret_Some in Hrun as [-> ->]. by exists Xs, ys, params.
Qed.


(** The events of [run_model], however it ends: its own call and perhaps
    the export. *)
Lemma run_model_trace `{Sklearn} model X_train y_train X_test y_test sessions_test
    tr outcome tr' :
  run_model model X_train y_train X_test y_test sessions_test tr = (outcome, tr') →
  ∃ rest,
    tr' = tr ++ call_run_model model X_train y_train X_test y_test sessions_test :: rest ∧
    Forall (fun ev => ¬ is_search ev) rest ∧
    (is_Some outcome → ∃ missed, rest = [to_csv "misclassified_sessions.csv" missed]).
Proof.
  unfold run_model, mbind, M_bind, log, lift. intros Hrun.
  repeat case_match; simplify_eq;
    try (exists []; split; [done|]; split; [done|]; by intros [? [=]]).
  rewrite <-app_assoc. eexists. split; [done|]. split.
  - repeat constructor. by intros [].
  - intros _. by eexists.
Qed.




(** C4. The imputer (constant strategy, fill value 0) and the scaler are
    fitted on the train partition and applied with these fitted parameters
    to the test partition: whatever the test partition is, the fitted
    parameters and the transformed train partition are the same. *)
Theorem transforms_fitted_on_train_only `{Sklearn}
    (X_train X_test X_test' : raw_matrix) :
  let run := preprocess X_train X_test in
  let run' := preprocess X_train X_test' in
  imputer run = SimpleImputer_fit "constant" 0 X_train ∧
  scaler run = StandardScaler_fit (SimpleImputer_transform (imputer run) X_train) ∧
  X_train_std run
    = StandardScaler_transform (scaler run)
        (SimpleImputer_transform (imputer run) X_train) ∧
  X_test_std run
    = StandardScaler_transform (scaler run)
        (SimpleImputer_transform (imputer run) X_test) ∧
  imputer run = imputer run' ∧
  scaler run = scaler run' ∧
  X_train_std run = X_train_std run'.
Proof. by repeat split. Qed.

End PipelineFacts.

(** ** Properties of the model classes *)

Module BaseModelFacts.
Import Training BaseModel.

(** C10. The class weighting is never consumed: [run] passes the features,
    the labels, the sessions and the family to [nested_cross_validation],
    so that its outcome and its whole trace (the searches, the final model,
    the export) are the same for any class weighting. The only class
    balancing is the fixed candidate ["balanced"] for [class_weight] in the
    grid of the svm family; no other family's grid has that parameter. *)
Theorem class_weighting_never_consumed `{Sklearn}
    (self : BaseModel.t) (w : list pyval) (tr : list event) (model : string) :
  run (with_class_weighting w self) tr = run self tr ∧
  grid_candidates "svm" "class_weight" = Some [PStr "balanced"] ∧
  (is_Some (grid_candidates model "class_weight") ↔ model = "svm").
Proof.
  split; [done|]. split; [by vm_compute|].
  unfold grid_candidates, grid_search_for. split.
  - intros Hsome.
    destruct (String.eqb model "svm") eqn:Hsvm; [by apply String.eqb_eq|].
    repeat (case_match; [by vm_compute in Hsome; destruct Hsome|]).
    by destruct Hsome.
  - intros ->. vm_compute. by eexists.
Qed.

End BaseModelFacts.

(** *** Runs that raise *)

Module AbortedRuns.
Import Training PipelineFacts.

Lemma hyperparameters_trace `{Sklearn} model X_train y_train tr outcome tr' :
  hyperparameters model X_train y_train tr = (outcome, tr') →
  tr' = tr ++ [call_hyperparameters model X_train y_train].
Proof.
  unfold hyperparameters, mbind, M_bind, log, lift. intros Hrun.
  repeat case_match; by simplify_eq.
Qed.

(** One turn of the loop calls the search at most once, and only on train
    rows, whether it raises or not. *)
Lemma outer_fold_trace `{Sklearn} model X_train y_train fold bh tr outcome tr' :
  outer_fold model X_train y_train fold bh tr = (outcome, tr') →
  (outcome = None ∧ tr' = tr) ∨
  ∃ ev, tr' = tr ++ [ev] ∧ searches_rows_of model X_train y_train ev.
Proof.
  unfold outer_fold. unfold mbind at 1 2 3 4. unfold M_bind at 1 2 3 4.
  unfold lift at 1 2 3 4.
  destruct (select X_train fold.1) as [Xs|] eqn:HXs; [|intros [= <- <-]; by left].
  destruct (select X_train fold.2) as [Xt|]; [|intros [= <- <-]; by left].
  destruct (select y_train fold.1) as [ys|] eqn:Hys; [|intros [= <- <-]; by left].
  destruct (select y_train fold.2) as [yt|]; [|intros [= <- <-]; by left].
  unfold mbind, M_bind.
  destruct (hyperparameters model Xs ys tr) as [params tr1] eqn:Hsearch.
  apply hyperparameters_trace in Hsearch as ->.
  intros Hrun. right. exists (call_hyperparameters model Xs ys). split.
  - destruct params; unfold mret, M_ret in Hrun; by simplify_eq.
  - exists Xs, ys. repeat split; try done; by eapply select_subseteq.
Qed.

Lemma outer_loop_trace `{Sklearn} model X_train y_train folds bh tr outcome tr' :
  for_each folds (outer_fold model X_train y_train) bh tr = (outcome, tr') →
  ∃ searches,
    tr' = tr ++ searches ∧
    Forall (searches_rows_of model X_train y_train) searches ∧
    (length searches <= length folds)%nat ∧
    (is_Some outcome → length searches = length folds).
Proof.
  revert bh tr. induction folds as [|fold folds IH]; intros bh tr Hrun; simpl in Hrun.
  { injection Hrun as <- <-. exists []. by rewrite app_nil_r. }
  unfold mbind, M_bind in Hrun.
  destruct (outer_fold model X_train y_train fold bh tr) as [bh1 tr1] eqn:Hfold.
  apply outer_fold_trace in Hfold as [[-> ->]|(ev & -> & Hev)].
  - injection Hrun as <- <-. exists []. rewrite app_nil_r.
    split; [done|]. split; [done|]. split; [simpl; lia|]. by intros [? [=]].
  - destruct bh1 as [bh1|].
    + apply IH in Hrun as (searches & -> & Hall & Hle & Hlen).
      exists (ev :: searches). rewrite <-app_assoc.
      split; [done|]. split; [by constructor|]. split; [simpl; lia|].
      intros Hsome. simpl. by rewrite Hlen.
    + injection Hrun as <- <-. exists [ev].
      split; [done|]. split; [by repeat constructor|]. split; [simpl; lia|].
      by intros [? [=]].
Qed.

(** In any run after the split, completed or not, the search is called at
    most ten times, only on rows of the transformed train partition, and
    before everything else. *)
Lemma search_calls_of_any_run `{Sklearn} X_train X_test y_train y_test sessions_test
    model_type tr0 outcome tr :
  cross_validate X_train X_test y_train y_test sessions_test model_type tr0
    = (outcome, tr) →
  ∃ searches rest,
    tr = tr0 ++ searches ++ rest ∧
    Forall (searches_rows_of model_type (train_table X_train) y_train) searches ∧
    (length searches <= 10)%nat ∧
    Forall (fun ev => ¬ is_search ev) rest ∧
    (rest ≠ [] → length searches = 10%nat).
Proof.
  unfold cross_validate. cbv zeta.
  change (X_train_std (preprocess X_train X_test)) with (train_table X_train).
  unfold mbind at 1 2. unfold M_bind at 1 2. unfold lift at 1.
  destruct (Metrics.KFold_split 10 42 (length (train_table X_train)))
    as [folds|] eqn:Hfolds.
  2:{ intros [= <- <-]. exists [], []. rewrite !app_nil_r.
      split; [done|]. split; [done|]. split; [simpl; lia|]. by split. }
  destruct (KFold_split_folds _ _ _ _ Hfolds) as [Hten _].
  destruct (for_each folds _ [] tr0) as [bh tr1] eqn:Hloop.
  apply outer_loop_trace in Hloop as (searches & -> & Hall & Hle & Hlen).
  destruct bh as [bh|].
  2:{ intros [= <- <-]. exists searches, []. rewrite app_nil_r.
      split; [done|]. split; [done|]. split; [lia|]. by split. }
  specialize (Hlen (ltac:(by eexists))).
  unfold mbind at 1 2. unfold M_bind at 1 2. unfold lift at 1 2.
  destruct (aggregate bh) as [fh|].
  2:{ intros [= <- <-]. exists searches, []. rewrite app_nil_r.
      split; [done|]. split; [done|]. split; [lia|]. by split. }
  destruct (build_model model_type fh) as [model|].
  2:{ intros [= <- <-]. exists searches, []. rewrite app_nil_r.
      split; [done|]. split; [done|]. split; [lia|]. by split. }
  unfold mbind, M_bind.
  destruct (run_model _ _ _ _ _ _ _) as [acc tr2] eqn:Hfinal.
  apply run_model_trace in Hfinal as (rest & -> & Hrest & _).
  intros Hrun.
  exists searches, (call_run_model model (train_table X_train) y_train
                      (X_test_std (preprocess X_train X_test)) y_test sessions_test
                    :: rest).
  split; [destruct acc; unfold mret, M_ret in Hrun; simplify_eq;
          by rewrite <-app_assoc|].
  split; [done|]. split; [lia|]. split; [|intros _; lia].
  constructor; [by intros []|done].
Qed.

End AbortedRuns.

(** ** The svm grid on binary64 floats *)

Module Binary64Facts.

#[local] Set Warnings "-inexact-float".

(** With rounding, [frange(0, 1.0, 0.1)] yields an eleventh value just
    below 1.0; the stop value itself is still not yielded. *)
Lemma frange_unit_grid :
  ∃ l, Binary64.frange Training.fuel 0 1.0 0.1 = Some l ∧
       length l = 11%nat ∧
       last l = Some 0x1.fffffffffffffp-1%float ∧
       forallb (fun x => PrimFloat.ltb x 1.0) l = true.
Proof. eexists. split; [by vm_compute|]. by vm_compute. Qed.

End Binary64Facts.

(** * Further properties *)

(** ** More on the generators *)

Module RangeMore.
Import Processing RangeFacts.

(** X1. With a step that is not positive and a start below the stop,
    [frange] never stops yielding: no amount of fuel lets
    [list(frange(...))] return. *)
Theorem frange_diverges (start stop step : Q) (fuel : nat) :
  (step <= 0)%Q → (start < stop)%Q → frange fuel start stop step = None.
Proof.
  intros Hstep. revert start. unfold frange.
  induction fuel as [|fuel IH]; intros start Hlt; [done|].
  simpl. unfold frange_next at 1.
  rewrite (proj2 (Qlt_bool_true start stop) Hlt).
  rewrite IH; [done|]. lra.
Qed.

Lemma frange_diverges_witness :
  (0 <= 0)%Q ∧ (0 < 1)%Q ∧ frange 1000 0 1 0 = None.
Proof.
  split; [discriminate|]. split; [reflexivity|].
  apply (frange_diverges 0 1 0 1000); [discriminate|reflexivity].
Defined.

Lemma Qpow_ge_1 factor k : (1 <= factor)%Q → (1 <= Qpow factor k)%Q.
Proof.
  intros Hf. induction k as [|k IH]; simpl; [lra|].
  assert (0 <= (factor - 1) * (Qpow factor k - 1))%Q
    by (apply Qmult_le_0_compat; lra).
  lra.
Qed.

(** Bernoulli's inequality. *)
Lemma Qpow_bernoulli factor k :
  (1 <= factor)%Q →
  (1 + inject_Z (Z.of_nat k) * (factor - 1) <= Qpow factor k)%Q.
Proof.
  intros Hf. induction k as [|k IH].
  - simpl. change (inject_Z (Z.of_nat 0)) with 0%Q. lra.
  - rewrite Nat2Z.inj_succ. unfold Z.succ. rewrite inject_Z_plus. simpl.
    change (inject_Z 1) with 1%Q.
    assert (0 <= inject_Z (Z.of_nat k))%Q as Hk.
    { change 0%Q with (inject_Z 0). rewrite <-Zle_Qle. lia. }
    set (n := inject_Z (Z.of_nat k)) in *. set (P := Qpow factor k) in *.
    assert (0 <= factor * (P - (1 + n * (factor - 1))))%Q as H1
      by (apply Qmult_le_0_compat; lra).
    assert (0 <= n * ((factor - 1) * (factor - 1)))%Q as H2.
    { apply Qmult_le_0_compat; [done|]. apply Qmult_le_0_compat; lra. }
    lra.
Qed.

Lemma geo_value_0 start factor : (geo_value start factor 0 == start)%Q.
Proof. unfold geo_value. simpl. ring. Qed.

Lemma geo_value_S start factor k :
  (geo_value start factor (S k) == geo_value (start * factor) factor k)%Q.
Proof. unfold geo_value. simpl. ring. Qed.

Lemma geo_value_ge start factor k :
  (0 < start)%Q → (1 <= factor)%Q → (start <= geo_value start factor k)%Q.
Proof.
  intros Hs Hf. unfold geo_value. pose proof (Qpow_ge_1 factor k Hf).
  assert (0 <= start * (Qpow factor k - 1))%Q by (apply Qmult_le_0_compat; lra).
  lra.
Qed.

(** Some value of the progression exceeds [stop]. *)
Lemma geo_value_exceeds start stop factor :
  (0 < start)%Q → (1 < factor)%Q → ∃ N, (stop < geo_value start factor N)%Q.
Proof.
  intros Hs Hf. set (d := (stop / (start * (factor - 1)))%Q).
  exists (Z.to_nat (Qceiling d)). unfold geo_value.
  assert (d <= inject_Z (Z.of_nat (Z.to_nat (Qceiling d))))%Q as Hd.
  { eapply Qle_trans; [apply Qle_ceiling|]. rewrite <-Zle_Qle. lia. }
  assert (d * (start * (factor - 1)) == stop)%Q as Heq.
  { unfold d. field. split; lra. }
  pose proof (Qpow_bernoulli factor (Z.to_nat (Qceiling d)) (Qlt_le_weak _ _ Hf)) as Hb.
  set (N := inject_Z (Z.of_nat (Z.to_nat (Qceiling d)))) in *.
  assert (0 <= start * (factor - 1))%Q as Hsd by (apply Qmult_le_0_compat; lra).
  assert (stop <= N * (start * (factor - 1)))%Q as Hstop.
  { rewrite <-Heq. by apply Qmult_le_compat_r. }
  set (P := Qpow factor (Z.to_nat (Qceiling d))) in *.
  assert (0 <= start * (P - (1 + N * (factor - 1))))%Q as Hprod
    by (apply Qmult_le_0_compat; lra).
  lra.
Qed.


(** A run of [mrange] that needs at most [N] steps. *)
Lemma mrange_run start stop factor N :
  (0 < start)%Q → (1 < factor)%Q → (stop < geo_value start factor N)%Q →
  ∃ n l,
    (∀ fuel, (n < fuel)%nat → mrange fuel start stop factor = Some l) ∧
    length l = n ∧
    (∀ i x, l !! i = Some x → (x == geo_value start factor i)%Q) ∧
    (∀ k, (k < n)%nat ↔ (geo_value start factor k <= stop)%Q).
Proof.
  intros Hstart Hf. revert start Hstart.
  induction N as [|N IH]; intros start Hstart Hreach;
    destruct (Qle_bool start stop) eqn:Hle.
  - apply Qle_bool_iff in Hle. rewrite geo_value_0 in Hreach. lra.
  - exists O, []. repeat split; try done.
    + intros [|fuel] Hfuel; [lia|]. unfold mrange, mrange_next. simpl. by rewrite Hle.
    + lia.
    + intros Hk. pose proof (geo_value_ge start factor k Hstart (Qlt_le_weak _ _ Hf)).
      assert (start <= stop)%Q as Hss by lra. apply Qle_bool_iff in Hss. congruence.
  - rewrite geo_value_S in Hreach.
    assert (0 < start * factor)%Q as Hpos by (apply Qmult_lt_0_compat; lra).
    destruct (IH _ Hpos Hreach) as (n & l & Hrun & Hlen & Hval & Hcount).
    exists (S n), (start :: l). repeat split.
    + intros [|fuel] Hfuel; [lia|]. unfold mrange, mrange_next. simpl. rewrite Hle.
      unfold mrange, mrange_next in Hrun. by rewrite Hrun by lia.
    + simpl. by rewrite Hlen.
    + intros [|i] x Hx; simpl in Hx.
      * injection Hx as <-. by rewrite geo_value_0.
      * rewrite geo_value_S. by apply Hval.
    + intros Hk. destruct k as [|k].
      * rewrite geo_value_0. by apply Qle_bool_iff.
      * rewrite geo_value_S. apply Hcount. lia.
    + intros Hk. destruct k as [|k]; [lia|].
      rewrite geo_value_S in Hk. apply Hcount in Hk. lia.
  - exists O, []. repeat split; try done.
    + intros [|fuel] Hfuel; [lia|]. unfold mrange, mrange_next. simpl. by rewrite Hle.
    + lia.
    + intros Hk. pose proof (geo_value_ge start factor k Hstart (Qlt_le_weak _ _ Hf)).
      assert (start <= stop)%Q as Hss by lra. apply Qle_bool_iff in Hss. congruence.
Qed.

(** X2. In exact arithmetic [mrange(start, stop, factor)] with a positive
    start and a factor above 1 returns, and yields the values
    [start * factor^k], [k = 0, 1, 2, ...], that are at most [stop], and no
    others: unlike [frange], a value equal to [stop] is yielded. *)
Theorem mrange_closed (start stop factor : Q) :
  (0 < start)%Q → (1 < factor)%Q →
  ∃ n l,
    (∀ fuel, (n < fuel)%nat → mrange fuel start stop factor = Some l) ∧
    length l = n ∧
    (∀ i x, l !! i = Some x → (x == geo_value start factor i)%Q) ∧
    (∀ k, (k < n)%nat ↔ (geo_value start factor k <= stop)%Q) ∧
    (∀ k, (geo_value start factor k == stop)%Q → ∃ x, l !! k = Some x ∧ (x == stop)%Q).
Proof.
  intros Hstart Hf.
  destruct (geo_value_exceeds start stop factor Hstart Hf) as [N HN].
  destruct (mrange_run start stop factor N Hstart Hf HN)
    as (n & l & Hrun & Hlen & Hval & Hcount).
  exists n, l. repeat split; try done; try apply Hcount.
  intros k Hk.
  assert (k < length l)%nat as Hlt by (rewrite Hlen; apply Hcount; lra).
  apply lookup_lt_is_Some in Hlt as [x Hx]. exists x. split; [done|].
  by rewrite (Hval k x Hx).
Qed.

(** The variance-smoothing grid [mrange(1e-5, 1, 10)]: six candidates, the
    last one equal to the stop value 1. *)
Lemma mrange_closed_witness :
  (0 < 0.00001)%Q ∧ (1 < 10)%Q ∧
  ∃ l x, mrange 1000 0.00001 1 10 = Some l ∧ length l = 6%nat ∧
         l !! 5%nat = Some x ∧ (x == 1)%Q.
Proof.
  split; [reflexivity|]. split; [reflexivity|].
  destruct (mrange_closed 0.00001 1 10) as (n & l & Hrun & Hlen & Hval & Hcount & Hstop);
    [reflexivity|reflexivity|].
  assert (n = 6%nat) as ->.
  { destruct (Nat.lt_trichotomy n 6) as [Hn|[Hn|Hn]]; [|done|].
    - assert (5 < n)%nat; [|lia]. apply Hcount. by vm_compute.
    - assert (6 < n)%nat as H6 by lia. apply Hcount in H6. by vm_compute in H6. }
  destruct (Hstop 5%nat) as (x & Hx & Hx1); [reflexivity|].
  exists l, x. split; [apply Hrun; lia|]. by split.
Defined.

(** X3. With a start between 0 and the stop and a factor between 0 and 1,
    [mrange] never stops yielding (a start of 0 is the simplest case): no
    amount of fuel lets [list(mrange(...))] return. *)
Theorem mrange_diverges (start stop factor : Q) (fuel : nat) :
  (0 <= start <= stop)%Q → (0 <= factor <= 1)%Q →
  mrange fuel start stop factor = None.
Proof.
  intros Hstart Hf. revert start Hstart. unfold mrange.
  induction fuel as [|fuel IH]; intros start Hstart; [done|].
  simpl. unfold mrange_next at 1.
  rewrite (proj2 (Qle_bool_iff start stop)) by lra.
  rewrite IH; [done|].
  assert (0 <= start * factor)%Q by (apply Qmult_le_0_compat; lra).
  assert (0 <= start * (1 - factor))%Q by (apply Qmult_le_0_compat; lra).
  lra.
Qed.

Lemma mrange_diverges_witness :
  (0 <= 0 <= 1)%Q ∧ (0 <= 1 <= 1)%Q ∧ mrange 1000 0 1 1 = None.
Proof.
  split; [split; discriminate|]. split; [split; discriminate|].
  apply (mrange_diverges 0 1 1 1000); split; discriminate.
Defined.

End RangeMore.

(** ** More on the data provider and the confusion statistics *)

Module DataMore.
Import Processing ProcessingFacts Analysis AnalysisFacts.

Lemma count_label_zero c y : c ∉ y → count_label c y = O.
Proof.
  unfold count_label. induction y as [|v y IH]; [done|].
  intros [Hv Hc]%not_elem_of_cons. simpl.
  rewrite (proj2 (Z.eqb_neq v c)) by done. by apply IH.
Qed.

(** X4. [extract_data] returns exactly when both labels 0 and 1 occur in
    the [State] column; a table with a single class, or an empty one, is a
    [KeyError]. *)
Theorem extract_data_needs_both_classes (df : list observation) :
  is_Some (extract_data df) ↔ 0 ∈ State <$> df ∧ 1 ∈ State <$> df.
Proof.
  unfold extract_data. rewrite !value_counts_lookup. split.
  - intros [data Hdata]. split.
    + destruct (decide (0 ∈ State <$> df)) as [|Hno]; [done|].
      rewrite (count_label_zero _ _ Hno) in Hdata. by rewrite decide_True in Hdata.
    + destruct (decide (1 ∈ State <$> df)) as [|Hno]; [done|].
      rewrite (count_label_zero _ _ Hno) in Hdata.
      by destruct (decide (count_label 0 (State <$> df) = O)).
  - intros [H0 H1]. rewrite !decide_False by by apply count_label_pos. done.
Qed.

Lemma np_divide_unit a b :
  0 <= a <= b → np_divide a b = NaN ∨ ∃ q, np_divide a b = Finite q ∧ (0 <= q <= 1)%Q.
Proof.
  intros Hab. unfold np_divide. destruct (b =? 0) eqn:Hb.
  - apply Z.eqb_eq in Hb. left. rewrite (proj2 (Z.eqb_eq a 0)) by lia. done.
  - apply Z.eqb_neq in Hb. right. eexists. split; [done|].
    assert (0 < inject_Z b)%Q as Hpos.
    { change 0%Q with (inject_Z 0). rewrite <-Zlt_Qlt. lia. }
    assert (0 <= inject_Z a)%Q as Ha0.
    { change 0%Q with (inject_Z 0). rewrite <-Zle_Qle. lia. }
    assert (inject_Z a <= inject_Z b)%Q as Hab' by (rewrite <-Zle_Qle; lia).
    split.
    + apply Qle_shift_div_l; [done|]. lra.
    + apply Qle_shift_div_r; [done|]. lra.
Qed.


(** X5. On a matrix whose four cells are counts (not negative, and adding
    up to less than 2^63, so that no sum of the int64 cells wraps around),
    [Analysis.confusion] never raises and never divides to infinity: every
    statistic is a fraction between 0 and 1, or [nan] when its denominator
    is zero. *)
Theorem confusion_statistics_range (cm : list (list Z)) (TP TN FP FN : Z) :
  cell cm 0 0 = Some TP → cell cm 1 1 = Some TN →
  cell cm 0 1 = Some FP → cell cm 1 0 = Some FN →
  0 <= TP → 0 <= TN → 0 <= FP → 0 <= FN →
  TP + TN + FP + FN < 2 ^ 63 →
  ∃ stats,
    confusion cm = Some stats ∧
    unit_or_nan (model_accuracy stats) ∧ unit_or_nan (model_error stats) ∧
    unit_or_nan (precision stats) ∧ unit_or_nan (recall stats) ∧
    unit_or_nan (true_positive_rate stats) ∧
    unit_or_nan (false_positive_rate stats) ∧ unit_or_nan (specificity stats).
Proof.
  intros HTP HTN HFP HFN ? ? ? ? _.
  unfold confusion. rewrite HTP, HTN, HFP, HFN. simpl.
  eexists. split; [done|]. simpl.
  repeat split; apply np_divide_unit; lia.
Qed.

(** The matrix of zeros: nothing raises, every statistic is [nan]. *)
Lemma confusion_statistics_range_witness :
  ∃ stats,
    confusion [[0; 0]; [0; 0]] = Some stats ∧
    model_accuracy stats = NaN ∧ precision stats = NaN ∧ specificity stats = NaN.
Proof.
  destruct (confusion_statistics_range [[0; 0]; [0; 0]] 0 0 0 0)
    as (stats & Hstats & _); try reflexivity; try discriminate.
  exists stats. split; [exact Hstats|].
  injection Hstats as <-. by repeat split.
Defined.

(** X6. The statistics are complementary: accuracy and error add up to 1,
    and so do specificity and false positive rate (the denominators not
    being zero). *)
Theorem confusion_complements (cm : list (list Z)) (stats : confusion_stats)
    (acc err spec fpr : Q) :
  confusion cm = Some stats →
  model_accuracy stats = Finite acc → model_error stats = Finite err →
  specificity stats = Finite spec → false_positive_rate stats = Finite fpr →
  (acc + err == 1)%Q ∧ (spec + fpr == 1)%Q.
Proof.
  unfold confusion. intros Hstats.
  destruct (cell cm 0 0) as [TP|]; [|done]. destruct (cell cm 1 1) as [TN|]; [|done].
  destruct (cell cm 0 1) as [FP|]; [|done]. destruct (cell cm 1 0) as [FN|]; [|done].
  simpl in Hstats. injection Hstats as <-. simpl. unfold np_divide.
  destruct (TP + TN + FP + FN =? 0) eqn:Hall; [by repeat case_match|].
  destruct (FP + TN =? 0) eqn:Hf; [by repeat case_match|].
  rewrite (Z.add_comm TN FP), Hf.
  intros [= <-] [= <-] [= <-] [= <-].
  apply Z.eqb_neq in Hall, Hf.
  assert (¬ (inject_Z (TP + TN + FP + FN) == 0)%Q) as Hall'.
  { change 0%Q with (inject_Z 0). by rewrite inject_Z_injective. }
  assert (¬ (inject_Z (FP + TN) == 0)%Q) as Hf'.
  { change 0%Q with (inject_Z 0). by rewrite inject_Z_injective. }
  split.
  - rewrite !inject_Z_plus in *. by field.
  - rewrite !inject_Z_plus in *. by field.
Qed.

Lemma confusion_complements_witness :
  ∃ stats acc err spec fpr,
    confusion [[50; 10]; [10; 30]] = Some stats ∧
    model_accuracy stats = Finite acc ∧ model_error stats = Finite err ∧
    specificity stats = Finite spec ∧ false_positive_rate stats = Finite fpr ∧
    (acc + err == 1)%Q ∧ (spec + fpr == 1)%Q.
Proof.
  do 5 eexists.
  split; [reflexivity|]. split; [reflexivity|]. split; [reflexivity|].
  split; [reflexivity|]. split; [reflexivity|].
  by apply (confusion_complements [[50; 10]; [10; 30]] _ _ _ _ _ eq_refl).
Defined.

End DataMore.

(** ** More on the log and the aggregator *)

Module AggregatorMore.
Import PyFacts CounterFacts Training AggregatorFacts MoreExample.


Lemma log_values_append key k v log :
  log_values key (log_append k v log)
  = log_values key log ++ (if String.eqb k key then [v] else []).
Proof.
  unfold log_values. induction log as [|[k' vs] log IH]; simpl.
  - destruct (String.eqb k key); done.
  - destruct (String.eqb k' k) eqn:Hk'; simpl.
    + apply String.eqb_eq in Hk' as ->.
      destruct (String.eqb k key); simpl; [done|by rewrite app_nil_r].
    + destruct (String.eqb k' key) eqn:Hkey; simpl; [|done].
      apply String.eqb_eq in Hkey as ->.
      rewrite String.eqb_sym, Hk'. by rewrite app_nil_r.
Qed.

Lemma log_values_record_params key params log :
  log_values key (record_params params log) = log_values key log ++ values_of key params.
Proof.
  unfold record_params, values_of. revert log.
  induction params as [|[k v] params IH]; intros log; simpl.
  - by rewrite app_nil_r.
  - rewrite IH, log_values_append. simpl.
    destruct (String.eqb k key); simpl; by rewrite <-?app_assoc, ?app_nil_r.
Qed.

Lemma log_values_record_folds key folds :
  log_values key (record_folds folds) = concat (values_of key <$> folds).
Proof.
  unfold record_folds.
  assert (∀ log, log_values key (fold_left (fun bh params => record_params params bh)
                                   folds log)
                 = log_values key log ++ concat (values_of key <$> folds)) as Hgen.
  { induction folds as [|params folds IH]; intros log; simpl.
    - by rewrite app_nil_r.
    - by rewrite IH, log_values_record_params, <-app_assoc. }
  by rewrite Hgen.
Qed.

Lemma lookup_log_wf key log vs : wf_log log → lookup_log key log = Some vs → vs ≠ [].
Proof.
  intros [_ Hne]. induction Hne as [|[k vs'] log Hvs _ IH]; simpl; [done|].
  destruct (String.eqb k key); [by intros [= <-]|done].
Qed.

(** X7. The log holds, for every parameter, the values the folds chose for
    it, in the order of the folds; a fold whose configuration lacks the
    parameter contributes nothing (the list is shorter, nothing is filled
    in), and a parameter no fold has is not in the log. *)
Theorem log_collects_fold_values (folds : list (list (string * pyval))) (key : string) :
  lookup_log key (record_folds folds)
  = match concat (values_of key <$> folds) with
    | [] => None
    | vs => Some vs
    end.
Proof.
  rewrite <-log_values_record_folds. unfold log_values.
  destruct (lookup_log key (record_folds folds)) as [vs|] eqn:Hlook; [|done].
  apply (lookup_log_wf _ _ _ (record_folds_wf folds)) in Hlook. by destruct vs.
Qed.

Lemma aggregate_step_None log : fold_left aggregate_step log None = None.
Proof. by induction log. Qed.

(** X8. With integers that fit int64, the aggregation raises exactly on a
    dictionary that holds an empty list for some parameter
    ([most_common(1)[0]] on an empty counter); the log of the outer loop
    never holds one, so the aggregation of a recorded log returns. The
    condition on the integers is needed: [np.mean([2**1100, 0.5])] is an
    [OverflowError]. *)
Theorem aggregate_raises_on_empty_list_only :
  (∀ log, int64_log log →
     (is_Some (Rounded.aggregate log) ↔ Forall (fun entry => snd entry ≠ []) log)) ∧
  (∀ folds, int64_log (record_folds folds) →
     is_Some (Rounded.aggregate (record_folds folds))) ∧
  Rounded.aggregate [("C", [PInt (2 ^ 1100); PFloat 0.5])] = None.
Proof.
  split; [|split].
  - intros log Hfit. split.
    + clear Hfit. unfold Rounded.aggregate.
      change (fun acc entry => fh ← acc; Rounded.aggregate_entry fh entry)
        with rounded_step. generalize (∅ : gmap string pyval).
      induction log as [|[k vs] log IH]; intros fh Hsome; [done|]. simpl in Hsome.
      destruct vs as [|v vs].
      * assert (Rounded.aggregate_entry fh (k, []) = None) as Hnil.
        { unfold Rounded.aggregate_entry, Rounded.mean_rule. simpl.
          by destruct (Binary64.np_mean []). }
        rewrite Hnil, rounded_step_None in Hsome. by destruct Hsome.
      * constructor; [done|].
        destruct (Rounded.aggregate_entry fh (k, v :: vs)) as [fh1|].
        -- by eapply IH.
        -- rewrite rounded_step_None in Hsome. by destruct Hsome.
    + intros Hne. by apply rounded_fold_total.
  - apply rounded_aggregate_total.
  - by vm_compute.
Qed.

(** The final value of a parameter of the log, by the kind of its values. *)
Lemma final_value_cases folds key vs :
  lookup_log key (record_folds folds) = Some vs →
  ∃ final,
    aggregate (record_folds folds) = Some final ∧ vs ≠ [] ∧
    (all_discrete vs → ∃ m, final !! key = Some m ∧ is_mode m vs) ∧
    (all_numeric vs → ¬ all_int vs →
     ∃ q, final !! key = Some (PFloat q) ∧ is_mean q (numbers vs)) ∧
    (¬ all_numeric vs → ¬ all_discrete vs → final !! key = None).
Proof.
  intros Hlook.
  destruct (aggregate_of_entry folds key vs Hlook)
    as (final & fh0 & fh' & Hagg & H0 & Hne & Hentry & Hfinal).
  exists final. split; [done|]. split; [done|]. rewrite Hfinal.
  unfold aggregate_entry in Hentry. simpl in Hentry. repeat split.
  - intros Hd.
    destruct (mode_rule_discrete key vs Hne Hd) as (m & Hm & Hmode).
    destruct (mean_rule key vs fh0) as [fh1|]; [|done]. simpl in Hentry.
    rewrite Hmode in Hentry. injection Hentry as <-.
    exists m. by rewrite lookup_insert_eq.
  - intros Hnum Hnint.
    destruct (mean_rule_numeric key vs Hne Hnum) as (q & Hq & Hmean).
    rewrite Hmean in Hentry. simpl in Hentry.
    rewrite mode_rule_skip in Hentry
      by (intros Hd; by apply Hnint, numeric_discrete_int).
    injection Hentry as <-. exists q. by rewrite lookup_insert_eq.
  - intros Hnum Hd.
    rewrite mean_rule_skip in Hentry by done. simpl in Hentry.
    rewrite mode_rule_skip in Hentry by done. by injection Hentry as <-.
Qed.

Lemma final_value_absent folds key :
  lookup_log key (record_folds folds) = None →
  ∃ final, aggregate (record_folds folds) = Some final ∧ final !! key = None.
Proof.
  intros Hlook. destruct (record_folds_wf folds) as [_ Hne].
  destruct (aggregate_fold_other (record_folds folds) ∅ key Hne) as (final & Hfold & Hkey).
  { by apply lookup_log_None. }
  exists final. split; [done|]. by rewrite Hkey, lookup_empty.
Qed.

(** X9. The final configuration has an entry for a parameter exactly when
    the log has the parameter and its per-fold values are all numbers or
    all integers or strings; nothing else gets in. *)
Theorem final_configuration_domain (folds : list (list (string * pyval)))
    (key : string) (final : gmap string pyval) :
  aggregate (record_folds folds) = Some final →
  (is_Some (final !! key) ↔
   ∃ vs, lookup_log key (record_folds folds) = Some vs ∧
         (all_numeric vs ∨ all_discrete vs)).
Proof.
  intros Hagg. destruct (lookup_log key (record_folds folds)) as [vs|] eqn:Hlook.
  - destruct (final_value_cases folds key vs Hlook)
      as (final' & Hagg' & _ & Hd & Hn & Hnone).
    assert (final' = final) as -> by congruence. split.
    + intros Hsome. exists vs. split; [done|].
      destruct (all_numeric_dec vs) as [|Hnn]; [by left|].
      destruct (all_discrete_dec vs) as [|Hnd]; [by right|].
      rewrite (Hnone Hnn Hnd) in Hsome. by destruct Hsome.
    + intros (vs' & [= <-] & [Hnum|Hdis]).
      * destruct (all_discrete_dec vs) as [Hdis|Hnd].
        -- destruct (Hd Hdis) as (m & -> & _). done.
        -- destruct (Hn Hnum) as (q & -> & _); [|done].
           intros Hint. by apply Hnd, all_int_discrete.
      * destruct (Hd Hdis) as (m & -> & _). done.
  - destruct (final_value_absent folds key Hlook) as (final' & Hagg' & Hkey).
    assert (final' = final) as -> by congruence. rewrite Hkey. split.
    + by intros [? [=]].
    + by intros (vs & [=] & _).
Qed.

Lemma final_configuration_domain_witness :
  ∃ final,
    aggregate (record_folds Example.mixed_folds) = Some final ∧
    ¬ is_Some (final !! "max_features") ∧
    ¬ is_Some (final !! "kernel").
Proof.
  destruct (aggregate (record_folds Example.mixed_folds)) as [final|] eqn:Hagg;
    [|by vm_compute in Hagg].
  exists final. split; [done|].
  pose proof (final_configuration_domain Example.mixed_folds "max_features" final Hagg)
    as Hfeat.
  pose proof (final_configuration_domain Example.mixed_folds "kernel" final Hagg)
    as Hkern.
  split.
  - intros Hsome. apply Hfeat in Hsome as (vs & [= <-] & [Hall|Hall]).
    + apply Forall_cons in Hall as [_ Hall]. by apply Forall_cons in Hall as [? _].
    + by apply Forall_cons in Hall as [? _].
  - intros Hsome. by apply Hkern in Hsome as (vs & [=] & _).
Defined.

(** Rounding matters to averaged parameters only: where both return, the
    loop with numpy's arithmetic and the loop with exact means leave the
    same value for every parameter whose per-fold values are not numbers
    that [np.mean] averages. *)
Lemma rounded_agrees_off_means folds key final final' :
  Rounded.aggregate (record_folds folds) = Some final →
  aggregate (record_folds folds) = Some final' →
  (∀ vs, lookup_log key (record_folds folds) = Some vs →
         all_discrete vs ∨ ¬ all_numeric vs) →
  final !! key = final' !! key.
Proof.
  intros Hagg Hagg' Hkind.
  destruct (lookup_log key (record_folds folds)) as [vs|] eqn:Hlook.
  - destruct (rounded_fold_entry _ ∅ final key vs
                (proj1 (record_folds_wf folds)) Hlook Hagg)
      as (gh0 & gh' & Hgh0 & Hrounded & ->).
    destruct (aggregate_of_entry folds key vs Hlook)
      as (final'' & fh0 & fh' & Hagg'' & Hfh0 & Hne & Hexact & Hfinal).
    assert (final'' = final') as -> by congruence. rewrite Hfinal.
    rewrite lookup_empty in Hgh0.
    unfold aggregate_entry in Hexact. simpl in Hexact.
    unfold Rounded.aggregate_entry in Hrounded. simpl in Hrounded.
    destruct (all_discrete_dec vs) as [Hdis|Hndis].
    + destruct (mode_rule_discrete key vs Hne Hdis) as (m & _ & Hmode).
      destruct (mean_rule key vs fh0) as [fh1|]; [|done]. simpl in Hexact.
      destruct (Rounded.mean_rule key vs gh0) as [gh1|]; [|done]. simpl in Hrounded.
      rewrite Hmode in Hexact, Hrounded.
      injection Hexact as <-. injection Hrounded as <-.
      by rewrite !lookup_insert_eq.
    + destruct (Hkind vs eq_refl) as [?|Hnnum]; [done|].
      rewrite mean_rule_skip in Hexact by done. simpl in Hexact.
      rewrite mode_rule_skip in Hexact by done. injection Hexact as <-.
      unfold Rounded.mean_rule in Hrounded.
      rewrite forallb_not_Forall in Hrounded by done. simpl in Hrounded.
      rewrite mode_rule_skip in Hrounded by done. injection Hrounded as <-.
      by rewrite Hgh0, Hfh0.
  - destruct (final_value_absent folds key Hlook) as (final'' & Hagg'' & Hkey).
    assert (final'' = final') as -> by congruence. rewrite Hkey.
    apply lookup_log_None in Hlook.
    unfold Rounded.aggregate in Hagg.
    change (fun acc entry => fh ← acc; Rounded.aggregate_entry fh entry)
      with rounded_step in Hagg.
    by rewrite (rounded_fold_other _ _ _ _ Hlook Hagg), lookup_empty.
Qed.

(** X10. When every fold chose the same value for a parameter, and the
    value is not a float, the final configuration keeps it: the very
    integer, boolean or string, by the mode; but a unanimous [None] is
    dropped. *)
Theorem unanimous_folds_keep_value (folds : list (list (string * pyval)))
    (key : string) (n : nat) (v : pyval) (final : gmap string pyval) :
  lookup_log key (record_folds folds) = Some (replicate (S n) v) →
  Rounded.aggregate (record_folds folds) = Some final →
  (∀ q, v ≠ PFloat q) →
  final !! key = match v with PNone => None | _ => Some v end.
Proof.
  intros Hlook Hagg Hfloat.
  destruct (rounded_value_cases folds key _ final Hlook Hagg) as (_ & _ & Hd & Hnone).
  assert (∀ f : pyval → bool, f v = true →
            Forall (fun x => f x = true) (replicate (S n) v)) as Hall.
  { intros f Hf. apply Forall_forall. by intros x [-> _]%elem_of_replicate. }
  assert (∀ f : pyval → bool, f v = false →
            ¬ Forall (fun x => f x = true) (replicate (S n) v)) as Hnot.
  { intros f Hf Hall'. apply Forall_cons in Hall' as [? _]. congruence. }
  assert (∀ m, is_mode m (replicate (S n) v) → m = v) as Hmode.
  { intros m (i & Hi & _). by apply lookup_replicate in Hi as [-> _]. }
  destruct v as [z|q|s|b|].
  - destruct Hd as (m & -> & Hm); [by apply Hall|]. by rewrite (Hmode m Hm).
  - by destruct (Hfloat q).
  - destruct Hd as (m & -> & Hm); [by apply Hall|]. by rewrite (Hmode m Hm).
  - destruct Hd as (m & -> & Hm); [by apply Hall|]. by rewrite (Hmode m Hm).
  - apply Hnone; by apply Hnot.
Qed.

Lemma unanimous_folds_keep_value_witness :
  ∃ final,
    Rounded.aggregate (record_folds agreeing_folds) = Some final ∧
    final !! "n_estimators" = Some (PInt 70) ∧
    final !! "max_depth" = None.
Proof.
  destruct (Rounded.aggregate (record_folds agreeing_folds)) as [final|] eqn:Hagg;
    [|by vm_compute in Hagg].
  exists final. split; [done|]. split.
  - by apply (unanimous_folds_keep_value agreeing_folds "n_estimators" 2 (PInt 70) final).
  - by apply (unanimous_folds_keep_value agreeing_folds "max_depth" 2 PNone final).
Defined.

(** X11. The mean rule can leave the range of the per-fold values: when
    ten folds all choose 0.6, the sum of the ten values in binary64 is
    5.999999999999999, and the final value is 0.5999999999999999: below the
    value of every fold, and no candidate of the grid. *)
Theorem mean_leaves_fold_values :
  ∃ final q,
    lookup_log "reg_param" (record_folds unanimous_floats)
    = Some (replicate 10 (PFloat 0.6)) ∧
    Rounded.aggregate (record_folds unanimous_floats) = Some final ∧
    final !! "reg_param" = Some (PFloat q) ∧
    q = Binary64.literal 0.5999999999999999 ∧
    (q < Binary64.literal 0.6)%Q.
Proof.
  eexists _, _. split; [by vm_compute|]. split; [by vm_compute|].
  split; [by vm_compute|]. split; by vm_compute.
Qed.

End AggregatorMore.

(** ** More on the final evaluation *)

Module EvaluationMore.
Import Training PipelineFacts ProcessingFacts.

Lemma count_correct_misclassified sessions y_test y_pred :
  length sessions = length y_test → length y_pred = length y_test →
  (Metrics.count_correct y_test y_pred
   + length (misclassified sessions y_test y_pred))%nat = length y_test.
Proof.
  unfold Metrics.count_correct. revert y_test y_pred.
  induction sessions as [|s sessions IH]; intros [|t y_test] [|p y_pred] Hs Hp;
    simpl in *; try done.
  destruct (t =? p); simpl; rewrite <-(IH y_test y_pred) by lia; lia.
Qed.

Lemma confusion_needs_label y_true y_pred cm stats :
  Metrics.confusion_matrix y_true y_pred = Some cm →
  Analysis.confusion cm = Some stats → y_true ≠ [].
Proof.
  unfold Metrics.confusion_matrix, Metrics.check_consistent_length.
  destruct (decide (length y_true = length y_pred)) as [Hlen|]; [|done]. simpl.
  intros [= <-] Hstats ->. destruct y_pred; [|done]. by vm_compute in Hstats.
Qed.


Lemma labels_of_elem y_true y_pred x :
  x ∈ labels_of y_true y_pred ↔ x ∈ y_true ++ y_pred.
Proof. unfold labels_of. by rewrite merge_sort_Permutation, elem_of_remove_dups. Qed.

Lemma labels_of_NoDup y_true y_pred : NoDup (labels_of y_true y_pred).
Proof. unfold labels_of. rewrite merge_sort_Permutation. apply NoDup_remove_dups. Qed.

(** With a single label there is a single row and column. *)
Lemma labels_of_single y_true y_pred a :
  (∀ x, x ∈ y_true ++ y_pred → x = a) → (length (labels_of y_true y_pred) <= 1)%nat.
Proof.
  intros Hall. pose proof (labels_of_NoDup y_true y_pred) as Hdup.
  destruct (labels_of y_true y_pred) as [|x [|x' labels]] eqn:Hlabels; simpl; [lia..|].
  assert (x = a) as ->.
  { apply Hall, labels_of_elem. rewrite Hlabels. left. }
  assert (x' = a) as ->.
  { apply Hall, labels_of_elem. rewrite Hlabels. right. left. }
  apply NoDup_cons in Hdup as [Hnot _]. destruct Hnot. left.
Qed.

Lemma confusion_needs_two_labels y_true y_pred cm stats :
  Metrics.confusion_matrix y_true y_pred = Some cm →
  Analysis.confusion cm = Some stats →
  (2 <= length (labels_of y_true y_pred))%nat.
Proof.
  unfold Metrics.confusion_matrix, Metrics.check_consistent_length.
  destruct (decide (length y_true = length y_pred)) as [Hlen|]; [|done]. simpl.
  fold (labels_of y_true y_pred). intros [= <-] Hstats.
  destruct (labels_of y_true y_pred) as [|l0 [|l1 labels]]; [done|done|simpl; lia].
Qed.

(** What [run_model] does, however it ends. *)
Lemma run_model_outcomes `{Sklearn} model X_train y_train X_test y_test sessions_test
    tr outcome tr' :
  run_model model X_train y_train X_test y_test sessions_test tr = (outcome, tr') →
  (outcome = None ∧
   tr' = tr ++ [call_run_model model X_train y_train X_test y_test sessions_test]) ∨
  ∃ fitted_model acc,
    fit model X_train y_train = Some fitted_model ∧
    length (predict fitted_model X_test) = length y_test ∧
    length sessions_test = length y_test ∧ y_test ≠ [] ∧
    (2 <= length (labels_of y_test (predict fitted_model X_test)))%nat ∧
    Metrics.accuracy_score y_test (predict fitted_model X_test) = Some acc ∧
    outcome = Some acc ∧
    tr' = tr ++ [call_run_model model X_train y_train X_test y_test sessions_test;
                 to_csv "misclassified_sessions.csv"
                   (misclassified sessions_test y_test (predict fitted_model X_test))].
Proof.
  unfold run_model. unfold mbind at 1 2. unfold M_bind at 1 2. unfold log at 1.
  unfold lift at 1.
  destruct (fit model X_train y_train) as [fm|] eqn:Hfit; [|intros [= <- <-]; by left].
  set (y_pred := predict fm X_test). cbv zeta.
  unfold mbind at 1. unfold M_bind at 1. unfold lift at 1.
  unfold Metrics.check_consistent_length at 1.
  destruct (decide (length y_test = length y_pred)) as [Hlen|];
    [|intros [= <- <-]; by left].
  unfold mbind at 1. unfold M_bind at 1. unfold lift at 1.
  destruct (Metrics.confusion_matrix y_test y_pred) as [cm|] eqn:Hcm;
    [|intros [= <- <-]; by left].
  unfold mbind at 1. unfold M_bind at 1. unfold lift at 1.
  destruct (Analysis.confusion cm) as [stats|] eqn:Hstats;
    [|intros [= <- <-]; by left].
  unfold mbind at 1. unfold M_bind at 1. unfold lift at 1.
  destruct (Analysis.roc y_test y_pred) as [[]|]; [|intros [= <- <-]; by left].
  unfold mbind at 1. unfold M_bind at 1. unfold lift at 1.
  destruct (mask_select sessions_test _) as [missed|] eqn:Hmask;
    [|intros [= <- <-]; by left].
  unfold mbind, M_bind, log, lift.
  assert (length sessions_test = length y_test) as Hsess.
  { unfold mask_select in Hmask. case_decide as Hl; [|done].
    rewrite length_zip_with in Hl. lia. }
  rewrite mask_select_misclassified in Hmask by (done || lia).
  injection Hmask as <-.
  pose proof (confusion_needs_label _ _ _ _ Hcm Hstats) as Hne.
  pose proof (confusion_needs_two_labels _ _ _ _ Hcm Hstats) as Htwo.
  destruct (accuracy_score_bounds y_test y_pred (eq_sym Hlen) Hne) as (acc & Hacc & _).
  rewrite Hacc. intros [= <- <-]. right. exists fm, acc.
  repeat split; try done. by rewrite <-app_assoc.
Qed.

(** X12. With one session name for every test label, the export and the
    result go together: [run_model] either raises, having written no file,
    or writes the misclassified sessions and returns the accuracy. The two
    agree: the accuracy is 1 minus the share of exported sessions among
    the test sessions, so that it is 1 exactly when the exported list is
    empty. *)
Theorem run_model_export_and_accuracy `{Sklearn}
    (model : estimator) (X_train : matrix) (y_train : list Z)
    (X_test : matrix) (y_test : list Z) (sessions_test : list string)
    (tr : list event) (outcome : option Q) (tr' : list event) :
  length sessions_test = length y_test →
  run_model model X_train y_train X_test y_test sessions_test tr = (outcome, tr') →
  (outcome = None ∧
   tr' = tr ++ [call_run_model model X_train y_train X_test y_test sessions_test]) ∨
  ∃ acc missed,
    outcome = Some acc ∧
    tr' = tr ++ [call_run_model model X_train y_train X_test y_test sessions_test;
                 to_csv "misclassified_sessions.csv" missed] ∧
    (acc == 1 - inject_Z (Z.of_nat (length missed))
                / inject_Z (Z.of_nat (length y_test)))%Q ∧
    (missed = [] ↔ (acc == 1)%Q).
Proof.
  intros _
    [Hraise|(fm & acc & Hfit & Hlen & Hsess & Hne & _ & Hacc & -> & ->)]%run_model_outcomes;
    [by left|right].
  exists acc, (misclassified sessions_test y_test (predict fm X_test)).
  split; [done|]. split; [done|].
  pose proof (count_correct_misclassified sessions_test y_test _ Hsess Hlen) as Hsum.
  unfold Metrics.accuracy_score, Metrics.check_consistent_length in Hacc.
  destruct (decide (length y_test = length (predict fm X_test))); [|done].
  simpl in Hacc. destruct (decide (length y_test = O)); [done|].
  injection Hacc as <-.
  set (missed := misclassified sessions_test y_test (predict fm X_test)) in *.
  set (c := Metrics.count_correct y_test (predict fm X_test)) in *.
  assert (¬ (inject_Z (Z.of_nat (length y_test)) == 0)%Q) as Hn.
  { change 0%Q with (inject_Z 0). rewrite inject_Z_injective. lia. }
  assert (inject_Z (Z.of_nat c) + inject_Z (Z.of_nat (length missed))
          == inject_Z (Z.of_nat (length y_test)))%Q as Hsum'.
  { rewrite <-inject_Z_plus, inject_Z_injective. lia. }
  assert (inject_Z (Z.of_nat c) / inject_Z (Z.of_nat (length y_test))
          == 1 - inject_Z (Z.of_nat (length missed))
                 / inject_Z (Z.of_nat (length y_test)))%Q as Hacc.
  { rewrite <-Hsum'. field. by rewrite Hsum'. }
  split; [done|]. rewrite Hacc. split.
  - intros ->. simpl. change (inject_Z (Z.of_nat 0)) with 0%Q. by field.
  - intros H1. destruct missed as [|s missed']; [done|]. exfalso.
    assert (inject_Z (Z.of_nat (length (s :: missed')))
            / inject_Z (Z.of_nat (length y_test)) == 0)%Q as H0 by lra.
    assert (inject_Z (Z.of_nat (length (s :: missed')))
            == inject_Z (Z.of_nat (length (s :: missed')))
               / inject_Z (Z.of_nat (length y_test))
               * inject_Z (Z.of_nat (length y_test)))%Q as H0' by (by field).
    rewrite H0 in H0'. rewrite Qmult_0_l in H0'.
    change 0%Q with (inject_Z 0) in H0'. rewrite inject_Z_injective in H0'.
    simpl in H0'. lia.
Qed.


Lemma run_model_export_and_accuracy_witness :
  ∃ acc missed,
    run_model (H := Example.toy) (SVC ∅) Example.X_one [1]
      Example.X_three [1; 1; 0] ["a.csv"; "b.csv"; "c.csv"] []
    = (Some acc,
       [call_run_model (SVC ∅) Example.X_one [1] Example.X_three [1; 1; 0]
          ["a.csv"; "b.csv"; "c.csv"];
        to_csv "misclassified_sessions.csv" missed]) ∧
    (acc == 1 - inject_Z (Z.of_nat (length missed)) / 3)%Q ∧
    (missed = [] ↔ (acc == 1)%Q).
Proof.
  destruct (run_model_export_and_accuracy (H := Example.toy) (SVC ∅) Example.X_one [1]
              Example.X_three [1; 1; 0] ["a.csv"; "b.csv"; "c.csv"] [] _ _
              eq_refl (surjective_pairing _))
    as [[Hnone _]|(acc & missed & Hout & Htr & Hacc & Hiff)].
  - vm_compute in Hnone. discriminate Hnone.
  - exists acc, missed. split; [|split; [exact Hacc|exact Hiff]].
    rewrite (surjective_pairing (run_model _ _ _ _ _ _ _)). by rewrite Hout, Htr.
Defined.

(** X13. When the true and the predicted test labels show one label only
    (or the test partition is empty), the confusion matrix has no cell
    [1,1]: [run_model] raises in [Analysis.confusion], after fitting and
    predicting, and exports nothing. *)
Theorem run_model_raises_on_single_label `{Sklearn}
    (model : estimator) (X_train : matrix) (y_train : list Z)
    (X_test : matrix) (y_test : list Z) (sessions_test : list string)
    (fitted_model : fitted) (a : Z) (tr : list event) :
  fit model X_train y_train = Some fitted_model →
  (∀ x, x ∈ y_test ++ predict fitted_model X_test → x = a) →
  run_model model X_train y_train X_test y_test sessions_test tr
  = (None, tr ++ [call_run_model model X_train y_train X_test y_test sessions_test]).
Proof.
  intros Hfit Hall.
  destruct (run_model model X_train y_train X_test y_test sessions_test tr)
    as [outcome tr'] eqn:Hrun.
  apply run_model_outcomes in Hrun
    as [[-> ->]|(fm & acc & Hfit' & _ & _ & _ & Htwo & _)]; [done|].
  rewrite Hfit in Hfit'. injection Hfit' as <-.
  pose proof (labels_of_single _ _ _ Hall). lia.
Qed.

(** A classifier whose predictions are all 1, on a test partition of label
    1 only: the evaluation raises. *)
Lemma run_model_raises_on_single_label_witness :
  run_model (H := Example.toy) (SVC ∅) Example.X_one [1]
    Example.X_one [1] ["a.csv"] []
  = (None, [call_run_model (SVC ∅) Example.X_one [1] Example.X_one [1] ["a.csv"]]).
Proof.
  apply (run_model_raises_on_single_label (H := Example.toy) (SVC ∅) Example.X_one [1]
           Example.X_one [1] ["a.csv"] tt 1 []); [reflexivity|].
  intros x Hx. apply list_elem_of_In in Hx. simpl in Hx.
  destruct Hx as [<-|[<-|[]]]; reflexivity.
Defined.


Lemma labels_of_binary y_true y_pred :
  binary (y_true ++ y_pred) → 0 ∈ y_true ++ y_pred → 1 ∈ y_true ++ y_pred →
  labels_of y_true y_pred = [0; 1].
Proof.
  intros Hbin H0 H1.
  pose proof (labels_of_NoDup y_true y_pred) as Hdup.
  assert (Sorted Z.le (labels_of y_true y_pred)) as Hsorted
    by apply (Sorted_merge_sort Z.le).
  assert (∀ x, x ∈ labels_of y_true y_pred → x = 0 ∨ x = 1) as Hin.
  { intros x Hx%labels_of_elem. unfold binary in Hbin.
    rewrite Forall_forall in Hbin. by apply Hbin. }
  apply labels_of_elem in H0, H1.
  destruct (labels_of y_true y_pred) as [|a [|b [|c labels]]].
  - by apply elem_of_nil in H0.
  - apply list_elem_of_singleton in H0, H1. congruence.
  - apply NoDup_cons in Hdup as [Hab _]. rewrite list_elem_of_singleton in Hab.
    apply Sorted_inv in Hsorted as [_ Hle]. apply HdRel_inv in Hle.
    assert (a = 0 ∨ a = 1) as Ha by (apply Hin; left).
    assert (b = 0 ∨ b = 1) as Hb by (apply Hin; right; left).
    assert (a = 0) as -> by lia. assert (b = 1) as -> by lia. done.
  - apply NoDup_cons in Hdup as [Hab Hdup]. apply NoDup_cons in Hdup as [Hbc _].
    apply not_elem_of_cons in Hab as [Hab Hac].
    apply not_elem_of_cons in Hac as [Hac _].
    apply not_elem_of_cons in Hbc as [Hbc _].
    assert (a = 0 ∨ a = 1) as Ha by (apply Hin; left).
    assert (b = 0 ∨ b = 1) as Hb by (apply Hin; right; left).
    assert (c = 0 ∨ c = 1) as Hc by (apply Hin; right; right; left).
    lia.
Qed.

(** The cells of the confusion matrix of binary labels add up to the
    numbers of true and of predicted labels, of agreements and of rows. *)
Lemma count_pairs_binary y_true y_pred :
  length y_pred = length y_true → binary y_true → binary y_pred →
  let c := fun t p => Metrics.count_pairs t p y_true y_pred in
  c 0 0 + c 0 1 = Z.of_nat (count_label 0 y_true) ∧
  c 0 0 + c 1 0 = Z.of_nat (count_label 0 y_pred) ∧
  c 0 1 + c 1 1 = Z.of_nat (count_label 1 y_pred) ∧
  c 0 0 + c 1 1 = Z.of_nat (Metrics.count_correct y_true y_pred) ∧
  c 0 0 + c 1 1 + c 0 1 + c 1 0 = Z.of_nat (length y_true).
Proof.
  intros Hlen Ht. revert y_pred Hlen.
  unfold Metrics.count_pairs, Metrics.count_correct, count_label.
  induction Ht as [|t y_true Htb _ IH]; intros [|p y_pred] Hlen Hp; simpl in *;
    try done.
  apply Forall_cons in Hp as [Hpb Hp].
  destruct (IH y_pred) as (H1 & H2 & H3 & H4 & H5); [lia|done|].
  destruct Htb as [-> | ->], Hpb as [-> | ->]; simpl;
    rewrite ?Nat2Z.inj_succ; repeat split; lia.
Qed.

(** X14. For test labels and predictions that are 0 or 1, both occurring,
    the accuracy [Analysis.confusion] prints from the confusion matrix is
    the accuracy [run_model] returns: the four cells it reads are the whole
    matrix. *)
Theorem printed_accuracy_is_returned_accuracy (y_test y_pred : list Z) :
  length y_pred = length y_test →
  binary y_test → binary y_pred →
  0 ∈ y_test ++ y_pred → 1 ∈ y_test ++ y_pred →
  ∃ cm stats acc,
    Metrics.confusion_matrix y_test y_pred = Some cm ∧
    Analysis.confusion cm = Some stats ∧
    Metrics.accuracy_score y_test y_pred = Some acc ∧
    Analysis.model_accuracy stats = Analysis.Finite acc.
Proof.
  intros Hlen Ht Hp H0 H1.
  assert (binary (y_test ++ y_pred)) as Hbin by by apply Forall_app.
  pose proof (labels_of_binary _ _ Hbin H0 H1) as Hlabels.
  destruct (count_pairs_binary y_test y_pred Hlen Ht Hp) as (_ & _ & _ & Hdiag & Hall).
  assert (y_test ≠ []) as Hne.
  { intros ->. apply nil_length_inv in Hlen. subst. by apply elem_of_nil in H0. }
  unfold Metrics.confusion_matrix, Metrics.accuracy_score,
    Metrics.check_consistent_length.
  rewrite decide_True by done. simpl.
  fold (labels_of y_test y_pred). rewrite Hlabels.
  destruct (decide (length y_test = O)) as [Hz|_]; [by destruct y_test|].
  eexists _, _, _. split; [done|]. split; [reflexivity|]. split; [done|].
  simpl. rewrite Hall, Hdiag. apply AnalysisFacts.np_divide_finite.
  destruct y_test; [done|simpl; lia].
Qed.

Lemma printed_accuracy_is_returned_accuracy_witness :
  ∃ cm stats acc,
    Metrics.confusion_matrix [1; 1; 0] [1; 0; 1] = Some cm ∧
    Analysis.confusion cm = Some stats ∧
    Metrics.accuracy_score [1; 1; 0] [1; 0; 1] = Some acc ∧
    Analysis.model_accuracy stats = Analysis.Finite acc ∧ (acc == 1 / 3)%Q.
Proof.
  destruct (printed_accuracy_is_returned_accuracy [1; 1; 0] [1; 0; 1])
    as (cm & stats & acc & Hcm & Hstats & Hacc & Heq).
  - reflexivity.
  - repeat first [apply Forall_nil_2 | apply Forall_cons_2; [lia|]].
  - repeat first [apply Forall_nil_2 | apply Forall_cons_2; [lia|]].
  - apply list_elem_of_In. simpl. auto.
  - apply list_elem_of_In. simpl. auto.
  - exists cm, stats, acc. repeat split; try done.
    injection Hacc as <-. reflexivity.
Defined.

(** X15. On such labels the cell [0,0] that the code calls TP counts the
    sessions of class 0 predicted as class 0, and the statistic printed as
    precision divides it by the number of sessions whose true label is 0,
    the one printed as recall by the number of sessions predicted 0. *)
Theorem precision_and_recall_of_class_0 (y_test y_pred : list Z) :
  length y_pred = length y_test →
  binary y_test → binary y_pred →
  0 ∈ y_test ++ y_pred → 1 ∈ y_test ++ y_pred →
  ∃ cm stats,
    Metrics.confusion_matrix y_test y_pred = Some cm ∧
    Analysis.confusion cm = Some stats ∧
    Analysis.cell cm 0 0 = Some (Metrics.count_pairs 0 0 y_test y_pred) ∧
    Analysis.precision stats
      = Analysis.np_divide (Metrics.count_pairs 0 0 y_test y_pred)
          (Z.of_nat (count_label 0 y_test)) ∧
    Analysis.recall stats
      = Analysis.np_divide (Metrics.count_pairs 0 0 y_test y_pred)
          (Z.of_nat (count_label 0 y_pred)).
Proof.
  intros Hlen Ht Hp H0 H1.
  assert (binary (y_test ++ y_pred)) as Hbin by by apply Forall_app.
  pose proof (labels_of_binary _ _ Hbin H0 H1) as Hlabels.
  destruct (count_pairs_binary y_test y_pred Hlen Ht Hp) as (Hrow & Hcol & _).
  unfold Metrics.confusion_matrix, Metrics.check_consistent_length.
  rewrite decide_True by done. simpl.
  fold (labels_of y_test y_pred). rewrite Hlabels.
  eexists _, _. split; [done|]. split; [reflexivity|]. split; [done|].
  simpl. by rewrite Hrow, Hcol.
Qed.

(** Labels 1, 1, 0 predicted 1, 0, 1: no session of class 0 is predicted 0,
    one session has the true label 0 and one is predicted 0. *)
Lemma precision_and_recall_of_class_0_witness :
  ∃ cm stats,
    Metrics.confusion_matrix [1; 1; 0] [1; 0; 1] = Some cm ∧
    Analysis.confusion cm = Some stats ∧
    Analysis.precision stats = Analysis.np_divide 0 1 ∧
    Analysis.recall stats = Analysis.np_divide 0 1.
Proof.
  destruct (precision_and_recall_of_class_0 [1; 1; 0] [1; 0; 1])
    as (cm & stats & Hcm & Hstats & _ & Hprec & Hrec).
  - reflexivity.
  - repeat first [apply Forall_nil_2 | apply Forall_cons_2; [lia|]].
  - repeat first [apply Forall_nil_2 | apply Forall_cons_2; [lia|]].
  - apply list_elem_of_In. simpl. auto.
  - apply list_elem_of_In. simpl. auto.
  - exists cm, stats. split; [exact Hcm|]. split; [exact Hstats|].
    split; [exact Hprec|exact Hrec].
Defined.

End EvaluationMore.

(** ** More on the outer loop and the families *)

Module LoopMore.
Import Training PipelineFacts AggregatorFacts AggregatorMore.

Lemma select_lookup {A} (a : list A) ix l j i :
  select a ix = Some l → ix !! j = Some i → ∃ x, a !! i = Some x ∧ l !! j = Some x.
Proof.
  unfold select. intros Hsel%mapM_Some_1 Hj.
  destruct (Forall2_lookup_l _ _ _ _ _ Hsel Hj) as (x & Hx & Hi). by exists x.
Qed.

Lemma select_length {A} (a : list A) ix l : select a ix = Some l → length l = length ix.
Proof. unfold select. intros Hsel%length_mapM. done. Qed.

(** X16. In a turn of the outer loop that completes, the search receives
    one feature row and one label for every row number of the fold's
    training part, and the two at the same position belong to the same
    row of the train partition. *)
Theorem search_slice_alignment `{Sklearn}
    (model : string) (X_train : matrix) (y_train : list Z)
    (fold : list nat * list nat) (bh bh' : list (string * list pyval))
    (tr tr' : list event) :
  outer_fold model X_train y_train fold bh tr = (Some bh', tr') →
  ∃ Xs ys,
    tr' = tr ++ [call_hyperparameters model Xs ys] ∧
    length Xs = length (fst fold) ∧ length ys = length (fst fold) ∧
    ∀ j i, fst fold !! j = Some i →
           ∃ row label, X_train !! i = Some row ∧ y_train !! i = Some label ∧
                        Xs !! j = Some row ∧ ys !! j = Some label.
Proof.
  intros (Xs & ys & params & HXs & Hys & -> & _)%outer_fold_Some.
  exists Xs, ys. split; [done|].
  split; [by eapply select_length|]. split; [by eapply select_length|].
  intros j i Hj.
  destruct (select_lookup _ _ _ _ _ HXs Hj) as (row & ? & ?).
  destruct (select_lookup _ _ _ _ _ Hys Hj) as (label & ? & ?).
  by exists row, label.
Qed.

Lemma search_slice_alignment_witness :
  ∃ Xs ys bh',
    outer_fold (H := Example.toy) "knn" Example.X_three [1; 1; 0] ([2; 0]%nat, [1%nat]) [] []
    = (Some bh', [call_hyperparameters "knn" Xs ys]) ∧
    Xs !! 0%nat = Example.X_three !! 2%nat ∧ ys !! 0%nat = Some 0.
Proof.
  destruct (outer_fold (H := Example.toy) "knn" Example.X_three [1; 1; 0]
              ([2; 0]%nat, [1%nat]) [] []) as [[bh'|] tr'] eqn:Hrun;
    [|by vm_compute in Hrun].
  destruct (search_slice_alignment (H := Example.toy) _ _ _ _ _ _ _ _ Hrun)
    as (Xs & ys & -> & _ & _ & Halign).
  destruct (Halign 0%nat 2%nat eq_refl) as (row & label & Hrow & Hlabel & HX & Hy).
  exists Xs, ys, bh'. split; [done|]. split; [congruence|].
  rewrite Hy. by rewrite <-Hlabel.
Defined.

(** X17. The validation part of a fold is selected and then never used:
    neither the search, nor the log, nor the trace depend on which (valid)
    row numbers it holds. No score is computed on the held-out fold. *)
Theorem validation_fold_unused `{Sklearn}
    (model : string) (X_train : matrix) (y_train : list Z)
    (train_ix test_ix test_ix' : list nat) (bh : list (string * list pyval))
    (tr : list event) :
  is_Some (select X_train test_ix) → is_Some (select y_train test_ix) →
  is_Some (select X_train test_ix') → is_Some (select y_train test_ix') →
  outer_fold model X_train y_train (train_ix, test_ix) bh tr
  = outer_fold model X_train y_train (train_ix, test_ix') bh tr.
Proof.
  intros [Xt HXt] [yt Hyt] [Xt' HXt'] [yt' Hyt'].
  unfold outer_fold. simpl. unfold mbind, M_bind, lift.
  rewrite HXt, Hyt, HXt', Hyt'. done.
Qed.

Lemma validation_fold_unused_witness :
  outer_fold (H := Example.toy) "knn" Example.X_three [1; 1; 0] ([2; 0]%nat, [1%nat]) [] []
  = outer_fold (H := Example.toy) "knn" Example.X_three [1; 1; 0] ([2; 0]%nat, []) [] [].
Proof.
  apply (validation_fold_unused (H := Example.toy)); by eexists.
Defined.

(** X18. With fewer than ten rows in the train partition the 10-fold split
    raises: the run stops before any search, with nothing added to the
    trace. *)
Theorem too_few_train_rows `{Sklearn}
    (X_train X_test : raw_matrix) (y_train y_test : list Z)
    (sessions_test : list string) (model_type : string) (tr0 : list event) :
  (length (train_table X_train) < 10)%nat →
  cross_validate X_train X_test y_train y_test sessions_test model_type tr0
  = (None, tr0).
Proof.
  intros Hlt. unfold cross_validate. cbv zeta.
  change (X_train_std (preprocess X_train X_test)) with (train_table X_train).
  unfold mbind at 1. unfold M_bind at 1. unfold lift at 1.
  unfold Metrics.KFold_split. by rewrite (proj2 (Nat.ltb_lt _ _) Hlt).
Qed.

Lemma too_few_train_rows_witness :
  cross_validate (H := Example.toy) [[Some 1%Q]; [None]] [[Some 2%Q]] [0; 1] [1]
    ["c.csv"] "svm" []
  = (None, []).
Proof.
  apply (too_few_train_rows (H := Example.toy)). vm_compute. lia.
Defined.

End LoopMore.

(** ** The families and the entry point *)

Module FamilyFacts.
Import Training PipelineFacts AggregatorFacts AggregatorMore Main MoreExample.

Lemma not_family model :
  model ∉ families →
  String.eqb model "svm" = false ∧ String.eqb model "random_forest" = false ∧
  String.eqb model "knn" = false ∧ String.eqb model "qda" = false ∧
  String.eqb model "gaussian_nb" = false ∧ String.eqb model "gaussian_pc" = false.
Proof.
  intros Hnot. repeat split; apply String.eqb_neq; intros ->; apply Hnot;
    apply list_elem_of_In; simpl; auto 10.
Qed.

(** X19. The two chains of [if] statements know the same six families. For
    each of them [hyperparameters] has a grid and, the Gaussian process
    apart (it needs its four parameters), the final model is built from a
    configuration whose keys are parameters of that grid, which the
    constructor accepts. For any other keyword the first search raises,
    having been called once, and no model could be built either. *)
Theorem families_of_search_and_builder `{Sklearn}
    (model : string) (X_train : matrix) (y_train : list Z) (tr : list event)
    (final_hypers : gmap string pyval) :
  (model ∈ families →
   ∃ gs, grid_search_for model = Some gs ∧
         (model ≠ "gaussian_pc" →
          (∀ key, is_Some (final_hypers !! key) → key ∈ fst <$> gs_param_grid gs) →
          is_Some (build_model model final_hypers))) ∧
  (model ∉ families →
   hyperparameters model X_train y_train tr
   = (None, tr ++ [call_hyperparameters model X_train y_train]) ∧
   build_model model final_hypers = None).
Proof.
  split.
  - intros Hin. apply list_elem_of_In in Hin. simpl in Hin.
    destruct Hin as [<-|[<-|[<-|[<-|[<-|[<-|[]]]]]]];
      (match goal with
       | |- ∃ gs, grid_search_for ?m = Some gs ∧ _ =>
           assert (is_Some (grid_search_for m)) as [gs Hgs]
             by (vm_compute; by eexists);
           exists gs; split; [exact Hgs|]
       end);
      intros Hgp _; try done; unfold build_model; simpl; by eexists.
  - intros (H1 & H2 & H3 & H4 & H5 & H6)%not_family. split.
    + unfold hyperparameters, mbind, M_bind, log, lift, grid_search_for.
      by rewrite H1, H2, H3, H4, H5, H6.
    + unfold build_model. by rewrite H1, H2, H3, H4, H5, H6.
Qed.

Lemma all_float_numeric vs : all_float vs → all_numeric vs.
Proof. intros Hall. eapply Forall_impl; [done|]. by intros x [q ->]. Qed.

Lemma all_float_not_int vs : vs ≠ [] → all_float vs → ¬ all_int vs.
Proof.
  intros Hne Hall Hint. destruct vs as [|v vs]; [done|].
  apply Forall_cons in Hall as [[q ->] _]. by apply Forall_cons in Hint as [? _].
Qed.

Lemma candidates_float cands vs :
  all_float cands → Forall (fun v => v ∈ cands) vs → all_float vs.
Proof.
  unfold all_float. intros Hcands Hvs. rewrite Forall_forall in Hcands.
  eapply Forall_impl; [exact Hvs|]. intros v Hv. by apply Hcands.
Qed.

Lemma candidates_int cands vs :
  all_int cands → Forall (fun v => v ∈ cands) vs → all_int vs.
Proof.
  unfold all_int. intros Hcands Hvs. rewrite Forall_forall in Hcands.
  eapply Forall_impl; [exact Hvs|]. intros v Hv. by apply Hcands.
Qed.

(** X20. For the Gaussian process family, when the folds report candidates
    of the grid for [c], [l], [n] and [max_iter_predict] and the
    aggregation returns, the final model is built: its three kernel
    parameters are what [np.mean] returns for the per-fold values, and its
    iteration limit is their most frequent value. *)
Theorem gaussian_process_final_model (folds : list (list (string * pyval)))
    (vc vl vn vm cc cl cn cm : list pyval) (final : gmap string pyval) :
  Rounded.aggregate (record_folds folds) = Some final →
  lookup_log "c" (record_folds folds) = Some vc →
  lookup_log "l" (record_folds folds) = Some vl →
  lookup_log "n" (record_folds folds) = Some vn →
  lookup_log "max_iter_predict" (record_folds folds) = Some vm →
  grid_candidates "gaussian_pc" "c" = Some cc → Forall (fun v => v ∈ cc) vc →
  grid_candidates "gaussian_pc" "l" = Some cl → Forall (fun v => v ∈ cl) vl →
  grid_candidates "gaussian_pc" "n" = Some cn → Forall (fun v => v ∈ cn) vn →
  grid_candidates "gaussian_pc" "max_iter_predict" = Some cm →
  Forall (fun v => v ∈ cm) vm →
  ∃ c l n m,
    build_model "gaussian_pc" final
    = Some (GaussianProcessClassifier (PFloat c) (PFloat l) (PFloat n) m) ∧
    Binary64.np_mean vc = Some (PFloat c) ∧
    Binary64.np_mean vl = Some (PFloat l) ∧
    Binary64.np_mean vn = Some (PFloat n) ∧
    is_mode m vm.
Proof.
  intros Hagg Hc Hl Hn Hm Hcc Hvc Hcl Hvl Hcn Hvn Hcm Hvm.
  assert (all_float vc) as Hfc.
  { eapply candidates_float; [|exact Hvc]. vm_compute in Hcc. injection Hcc as <-.
    repeat first [apply Forall_nil_2 | apply Forall_cons_2; [by eexists|]]. }
  assert (all_float vl) as Hfl.
  { eapply candidates_float; [|exact Hvl]. vm_compute in Hcl. injection Hcl as <-.
    repeat first [apply Forall_nil_2 | apply Forall_cons_2; [by eexists|]]. }
  assert (all_float vn) as Hfn.
  { eapply candidates_float; [|exact Hvn]. vm_compute in Hcn. injection Hcn as <-.
    repeat first [apply Forall_nil_2 | apply Forall_cons_2; [by eexists|]]. }
  assert (all_int vm) as Him.
  { eapply candidates_int; [|exact Hvm]. vm_compute in Hcm. injection Hcm as <-.
    repeat first [apply Forall_nil_2 | apply Forall_cons_2; [done|]]. }
  destruct (rounded_value_cases folds _ _ final Hc Hagg) as (Hnec & Hmc & _).
  destruct (rounded_value_cases folds _ _ final Hl Hagg) as (Hnel & Hml & _).
  destruct (rounded_value_cases folds _ _ final Hn Hagg) as (Hnen & Hmn & _).
  destruct (rounded_value_cases folds _ _ final Hm Hagg) as (_ & _ & Hmm & _).
  destruct Hmc as (c & Hmean_c & Hfc');
    [by apply all_float_numeric|by apply all_float_not_int|].
  destruct Hml as (l & Hmean_l & Hfl');
    [by apply all_float_numeric|by apply all_float_not_int|].
  destruct Hmn as (n & Hmean_n & Hfn');
    [by apply all_float_numeric|by apply all_float_not_int|].
  destruct Hmm as (m & Hfm' & Hmode); [by apply all_int_discrete|].
  exists c, l, n, m. split; [|done].
  unfold build_model. simpl. by rewrite Hfc', Hfl', Hfn', Hfm'.
Qed.

(** Two folds: the means of 1 and 10, of 0.1 twice and of 1 and 0.1. *)
Lemma gaussian_process_final_model_witness :
  ∃ final,
    Rounded.aggregate (record_folds gaussian_folds) = Some final ∧
    build_model "gaussian_pc" final
    = Some (GaussianProcessClassifier (PFloat (Binary64.literal 5.5))
              (PFloat (Binary64.literal 0.1)) (PFloat (Binary64.literal 0.55))
              (PInt 100)).
Proof.
  destruct (Rounded.aggregate (record_folds gaussian_folds)) as [final|] eqn:Hagg;
    [|by vm_compute in Hagg].
  exists final. split; [done|].
  destruct (grid_candidates "gaussian_pc" "c") as [cc|] eqn:Hcc;
    [|by vm_compute in Hcc].
  destruct (grid_candidates "gaussian_pc" "l") as [cl|] eqn:Hcl;
    [|by vm_compute in Hcl].
  destruct (grid_candidates "gaussian_pc" "n") as [cn|] eqn:Hcn;
    [|by vm_compute in Hcn].
  destruct (grid_candidates "gaussian_pc" "max_iter_predict") as [cm|] eqn:Hcm;
    [|by vm_compute in Hcm].
  destruct (gaussian_process_final_model gaussian_folds
              [PFloat 1; PFloat 10] [PFloat 0.1; PFloat 0.1] [PFloat 1; PFloat 0.1]
              [PInt 100; PInt 100] cc cl cn cm final Hagg
              eq_refl eq_refl eq_refl eq_refl)
    as (c & l & n & m & Hbuild & Hc & Hl & Hn & i & Hi & _);
    try assumption.
  { vm_compute in Hcc. injection Hcc as <-.
    repeat first [apply Forall_nil_2
                 | apply Forall_cons_2; [apply list_elem_of_In; simpl; auto 10|]]. }
  { vm_compute in Hcl. injection Hcl as <-.
    repeat first [apply Forall_nil_2
                 | apply Forall_cons_2; [apply list_elem_of_In; simpl; auto 10|]]. }
  { vm_compute in Hcn. injection Hcn as <-.
    repeat first [apply Forall_nil_2
                 | apply Forall_cons_2; [apply list_elem_of_In; simpl; auto 10|]]. }
  { vm_compute in Hcm. injection Hcm as <-.
    repeat first [apply Forall_nil_2
                 | apply Forall_cons_2; [apply list_elem_of_In; simpl; auto 10|]]. }
  rewrite Hbuild.
  assert (m = PInt 100) as ->.
  { destruct i as [|[|i]]; simpl in Hi; [by injection Hi..|by destruct i]. }
  vm_compute in Hc, Hl, Hn. injection Hc as <-. injection Hl as <-. injection Hn as <-.
  by vm_compute.
Defined.

(** X21. [main] runs a family only for one of its six menu entries, and
    each entry selects a family that the search knows. Any other answer is
    reported without an error and without any call; for a menu entry a
    table that lacks one of the two classes raises in the constructor,
    before anything is split or searched. *)
Theorem main_dispatch `{Sklearn}
    (model_type : string) (df : list Processing.observation) (tr : list event) :
  match menu model_type with
  | None => main model_type df tr = (Some tt, tr)
  | Some keyword =>
      keyword ∈ families ∧ is_Some (grid_search_for keyword) ∧
      (Processing.extract_data df = None → main model_type df tr = (None, tr)) ∧
      (∀ X y sessions class_weighting,
         Processing.extract_data df = Some (X, y, sessions, class_weighting) →
         main model_type df tr
         = BaseModel.run (BaseModel.Build_t X y sessions class_weighting (Some keyword)) tr)
  end.
Proof.
  unfold main. destruct (menu model_type) as [keyword|] eqn:Hmenu; [|done].
  assert (keyword ∈ families) as Hfam.
  { unfold menu, model_functions in Hmenu. simpl in Hmenu.
    repeat (case_match; [injection Hmenu as <-; apply list_elem_of_In; simpl; auto 10|]).
    done. }
  split; [done|]. split.
  - apply list_elem_of_In in Hfam. simpl in Hfam.
    destruct Hfam as [<-|[<-|[<-|[<-|[<-|[<-|[]]]]]]]; vm_compute; by eexists.
  - unfold BaseModel.init_subclass, BaseModel.init, mbind at 1, M_bind at 1, lift.
    split.
    + by intros ->.
    + by intros X y sessions w ->.
Qed.

End FamilyFacts.

(** ** Runs that raise *)

Module FailedRuns.
Import Training PipelineFacts AbortedRuns EvaluationMore.

(** X22. A run that raises after the split exports nothing: its trace is
    at most ten search calls on rows of the train partition, followed, if
    all ten folds were searched and a model was built, by the one call of
    [run_model] that raised. [misclassified_sessions.csv] is written by
    completed runs only. *)
Theorem failed_run_writes_no_file `{Sklearn}
    (X_train X_test : raw_matrix) (y_train y_test : list Z)
    (sessions_test : list string) (model_type : string) (tr0 tr : list event) :
  cross_validate X_train X_test y_train y_test sessions_test model_type tr0
  = (None, tr) →
  ∃ searches rest,
    tr = tr0 ++ searches ++ rest ∧
    Forall (searches_rows_of model_type (train_table X_train) y_train) searches ∧
    (length searches <= 10)%nat ∧
    (rest = [] ∨
     length searches = 10%nat ∧
     ∃ model, rest = [call_run_model model (train_table X_train) y_train
                        (X_test_std (preprocess X_train X_test)) y_test sessions_test]).
Proof.
  unfold cross_validate. cbv zeta.
  change (X_train_std (preprocess X_train X_test)) with (train_table X_train).
  unfold mbind at 1 2. unfold M_bind at 1 2. unfold lift at 1.
  destruct (Metrics.KFold_split 10 42 (length (train_table X_train)))
    as [folds|] eqn:Hfolds.
  2:{ intros [= <-]. exists [], []. rewrite !app_nil_r.
      split; [done|]. split; [done|]. split; [simpl; lia|]. by left. }
  destruct (for_each folds _ [] tr0) as [bh tr1] eqn:Hloop.
  apply outer_loop_trace in Hloop as (searches & -> & Hall & Hle & Hlen).
  destruct (KFold_split_folds _ _ _ _ Hfolds) as [Hten _].
  destruct bh as [bh|].
  2:{ intros [= <-]. exists searches, []. rewrite app_nil_r.
      split; [done|]. split; [done|]. split; [lia|]. by left. }
  specialize (Hlen (ltac:(by eexists))).
  unfold mbind at 1 2. unfold M_bind at 1 2. unfold lift at 1 2.
  destruct (aggregate bh) as [fh|].
  2:{ intros [= <-]. exists searches, []. rewrite app_nil_r.
      split; [done|]. split; [done|]. split; [lia|]. by left. }
  destruct (build_model model_type fh) as [model|].
  2:{ intros [= <-]. exists searches, []. rewrite app_nil_r.
      split; [done|]. split; [done|]. split; [lia|]. by left. }
  unfold mbind, M_bind.
  destruct (run_model _ _ _ _ _ _ _) as [acc tr2] eqn:Hfinal.
  apply run_model_outcomes in Hfinal as [[-> ->]|(fm & a & _ & _ & _ & _ & _ & _ & -> & ->)].
  - intros [= <-]. exists searches, [call_run_model model (train_table X_train) y_train
                      (X_test_std (preprocess X_train X_test)) y_test sessions_test].
    split; [by rewrite <-app_assoc|]. split; [done|]. split; [lia|].
    right. split; [lia|]. by exists model.
  - unfold mret, M_ret. intros [=].
Qed.

(** Fifteen train rows and a family without a grid: the first search
    raises. *)
Lemma failed_run_writes_no_file_witness :
  ∃ searches rest,
    snd (cross_validate (H := Example.toy) Example.X15 [] Example.y15 [] [] "lda" [])
    = [] ++ searches ++ rest ∧
    Forall (searches_rows_of "lda" (train_table (H := Example.toy) Example.X15)
              Example.y15) searches ∧
    (length searches <= 10)%nat ∧
    (rest = [] ∨
     length searches = 10%nat ∧
     ∃ model, rest = [call_run_model model (train_table (H := Example.toy) Example.X15)
                        Example.y15
                        (X_test_std (preprocess (H := Example.toy) Example.X15 []))
                        [] []]).
Proof.
  apply (failed_run_writes_no_file (H := Example.toy) Example.X15 [] Example.y15 [] []
           "lda" []).
  by vm_compute.
Defined.

End FailedRuns.
